(** * py2puml: class-model extraction, namespace tracking and PlantUML emission

    A shallow embedding of [py2puml/py2puml.py] and the properties of its
    three cooperating parts: the [TreeVisitor] that extracts a [ClassInfo]
    per class definition, the namespace bookkeeping of [PUML_Generator], and
    the text the generator writes.

    Python values are modelled as follows.  A [str] is a [string]; a Python
    list is a [list] in the same order ([append] adds at the end, [pop]
    removes the end); [None] is [None]; an exception is the [Raise] outcome
    of [result].  The output stream [dest] is kept as the sequence of calls
    to [PUML_Generator.indent], each with the namespace depth it was written
    at and its argument tuple; [document] renders it to the text. *)

From Stdlib Require Import List String Ascii Bool Arith Lia DecimalString.
Import ListNotations.
Open Scope string_scope.
Open Scope list_scope.
Open Scope nat_scope.

(** Python's [+] on [str]. *)
Infix "+++" := String.append (right associativity, at level 60).

Set Implicit Arguments.

(** ** Python string operations used by the program *)

Module Py.

(** [str.startswith(prefix)]. *)
Fixpoint startswith (s prefix : string) {struct prefix} : bool :=
  match prefix with
  | EmptyString => true
  | String p prefix' =>
      match s with
      | EmptyString => false
      | String c s' => Ascii.eqb c p && startswith s' prefix'
      end
  end.

(** Characters removed by [str.rstrip()] with no argument, in the ASCII
    range: TAB, LF, VT, FF, CR, the separators 0x1c to 0x1f, and space. *)
Definition isspace (c : ascii) : bool :=
  let n := nat_of_ascii c in
  ((9 <=? n) && (n <=? 13)) || ((28 <=? n) && (n <=? 32)).

(** [str.rstrip()]. *)
Fixpoint rstrip (s : string) : string :=
  match s with
  | EmptyString => EmptyString
  | String c r =>
      match rstrip r with
      | EmptyString => if isspace c then EmptyString else String c EmptyString
      | r' => String c r'
      end
  end.

(** [s * n]. *)
Fixpoint repeat_str (s : string) (n : nat) : string :=
  match n with
  | 0 => EmptyString
  | S k => s +++ repeat_str s k
  end.

(** [sep.join(parts)]. *)
Definition join (sep : string) (parts : list string) : string :=
  String.concat sep parts.

(** [s.split(sep)] for a one-character separator: never empty. *)
Fixpoint split (sep : ascii) (s : string) : list string :=
  match s with
  | EmptyString => [EmptyString]
  | String c r =>
      if Ascii.eqb c sep then EmptyString :: split sep r
      else match split sep r with
           | h :: t => String c h :: t
           | [] => [String c EmptyString]
           end
  end.

(** [s.rfind(c)]: the last index of [c], or [None] for Python's [-1]. *)
Fixpoint rfind (c : ascii) (s : string) : option nat :=
  match s with
  | EmptyString => None
  | String d r =>
      match rfind c r with
      | Some i => Some (S i)
      | None => if Ascii.eqb d c then Some 0 else None
      end
  end.

(** The one-character string a newline escape denotes. *)
Definition LF : string := String (ascii_of_nat 10) EmptyString.

(** Truth value of a [str]: non-empty. *)
Definition truthy (s : string) : bool :=
  match s with EmptyString => false | String _ _ => true end.

End Py.

(** ** Outcomes of fallible code *)

Inductive exn : Type :=
| IndexError                       (* [list.pop] on an empty list *)
| ValueError                       (* [os.path.relpath] on an empty path *)
| AttributeError (obj attr : string)
| OSError (filename : string)
| SyntaxError (lineno offset : nat) (text : string)
| LoopBound.                       (* not a Python exception: the bound the
                                      model puts on a [while] loop ran out *)

Inductive result (A : Type) : Type :=
| Ok (a : A)
| Raise (e : exn).
Arguments Raise {A} e.

Definition bind {A B : Type} (r : result A) (k : A -> result B) : result B :=
  match r with
  | Ok a => k a
  | Raise e => Raise e
  end.

Notation "x <- r ;; k" := (bind r (fun x => k))
  (at level 61, r at next level, right associativity).

(** ** The syntax tree, as far as the visitor looks at it

    Expressions: [ast.Name], [ast.Attribute], [ast.Tuple] (the target of an
    unpacking assignment such as [self.x, self.y = 1, 2]), and every other
    expression kind, which the program only ever renders with
    [astor.to_source]; such a node carries the source text astor generates
    for it. *)

#[local] Unset Elimination Schemes.
Inductive expr : Type :=
| Name (id : string)
| Attribute (value : expr) (attr : string)
| Tuple (elts : list expr)
| OtherExpr (src : string).
#[local] Set Elimination Schemes.

(** [ast.arguments], as far as it is modelled: positional parameters,
    [*vararg] and [**kwarg], by name.  Defaults, annotations, keyword-only
    and positional-only parameters are not represented. *)

Record arguments : Type := mk_arguments {
  args : list string;
  vararg : option string;
  kwarg : option string
}.

(** Nodes reached by [TreeVisitor.visit].  [Other] is any node kind without a
    [visit_*] override ([Module], [If], [For], [While], [With], [Try],
    [ExceptHandler], [AsyncFunctionDef], [AugAssign], [AnnAssign], [Expr],
    [Pass], ...): [ast.NodeVisitor.generic_visit] visits its child nodes in
    field order.  Expression children are left out of [children]: no
    expression contains a statement, so visiting one reaches none of the
    three overridden handlers. *)
#[local] Unset Elimination Schemes.
Inductive node : Type :=
| ClassDef (name : string) (bases : list expr) (body : list node)
| FunctionDef (name : string) (a : arguments) (body : list node)
| Assign (targets : list expr)
| Other (children : list node).
#[local] Set Elimination Schemes.

(** [ast.AsyncFunctionDef], the node of an [async def]: one of the node
    kinds without a handler.  [generic_visit] goes through its fields; the
    arguments, decorators and return annotation hold no statement, so what
    is visited are the statements of the body. *)
Definition AsyncFunctionDef (name : string) (a : arguments)
           (body : list node) : node :=
Other body.

(** [ast.AnnAssign] and [ast.AugAssign], the nodes of [target: T = value]
    and [target += value]: node kinds without a handler, all of whose fields
    are expressions, so that a visit reaches no statement. *)
Definition AnnAssign (target : expr) : node :=
Other [].

Definition AugAssign (target : expr) : node :=
Other [].

(** Induction over [node] with the children of a node under [Forall]. *)
Section node_induction.
Variable P : node -> Prop.
Hypothesis P_ClassDef : forall name bases body,
    Forall P body -> P (ClassDef name bases body).
Hypothesis P_FunctionDef : forall name a body,
    Forall P body -> P (FunctionDef name a body).
Hypothesis P_Assign : forall targets, P (Assign targets).
Hypothesis P_Other : forall children,
    Forall P children -> P (Other children).

Fixpoint node_forall_ind (n : node) : P n :=
  let fix go (l : list node) : Forall P l :=
    match l with
    | [] => Forall_nil P
    | c :: l' => Forall_cons c (node_forall_ind c) (go l')
    end in
  match n with
  | ClassDef name bases body => P_ClassDef name bases (go body)
  | FunctionDef name a body => P_FunctionDef name a (go body)
  | Assign targets => P_Assign targets
  | Other children => P_Other (go children)
  end.
End node_induction.

(** ** ClassInfo *)

(** What [print_classinfo] reads of a [FunctionDef] node kept in
    [ClassInfo.methods]: [m.name] and [m.args]. *)
Record method : Type := mk_method {
  m_name : string;
  m_args : arguments
}.

Record ClassInfo : Type := mk_ClassInfo {
  classname : string;
  bases : list expr;
  classvars : list string;
  members : list string;
  methods : list method
}.

(** [ClassInfo.__init__(node)]. *)
Definition new_ClassInfo (name : string) (bs : list expr) : ClassInfo :=
  mk_ClassInfo name bs [] [] [].

Definition visibility (name : string) : string :=
  if Py.startswith name "_" then "-" else "+".

Definition add_classvar (name : string) (ci : ClassInfo) : ClassInfo :=
  mk_ClassInfo (classname ci) (bases ci)
               (classvars ci ++ [name]) (members ci) (methods ci).

(** [name not in self.members]. *)
Definition mem (name : string) (l : list string) : bool :=
  existsb (String.eqb name) l.

Definition add_member (name : string) (ci : ClassInfo) : ClassInfo :=
  if negb (mem name (members ci))
  then mk_ClassInfo (classname ci) (bases ci)
                    (classvars ci) (members ci ++ [name]) (methods ci)
  else ci.

Definition add_method (m : method) (ci : ClassInfo) : ClassInfo :=
  mk_ClassInfo (classname ci) (bases ci)
               (classvars ci) (members ci) (methods ci ++ [m]).

(** ** TreeVisitor *)

(** The [context] a visitor reports to: any object with a
    [print_classinfo] method. *)
Class Context (C : Type) : Type :=
  print_classinfo : ClassInfo -> C -> C.

Record TreeVisitor (C : Type) : Type := mk_TreeVisitor {
  context : C;
  classinfo : option ClassInfo;
  constructor : bool
}.

(** [TreeVisitor.__init__(context)]. *)
Definition new_TreeVisitor {C : Type} (ctx : C) : TreeVisitor C :=
  mk_TreeVisitor ctx None false.

Section Visitor.
Context {C : Type} {print : Context C}.

Definition set_classinfo (o : option ClassInfo) (v : TreeVisitor C) :=
  mk_TreeVisitor (context v) o (constructor v).

Definition set_constructor (b : bool) (v : TreeVisitor C) :=
  mk_TreeVisitor (context v) (classinfo v) b.

(** A method call [self.classinfo.f(...)] that updates the record.  With
    [self.classinfo] being [None] Python raises; the visitor never makes
    such a call (see [visit_guard]). *)
Definition on_classinfo (f : ClassInfo -> ClassInfo) (v : TreeVisitor C) :=
  match classinfo v with
  | Some ci => set_classinfo (Some (f ci)) v
  | None => v
  end.

(** [self.classinfo.done(self.context)]. *)
Definition done (v : TreeVisitor C) : TreeVisitor C :=
  match classinfo v with
  | Some ci =>
      mk_TreeVisitor (print_classinfo ci (context v))
                     (classinfo v) (constructor v)
  | None => v
  end.

(** One target of an assignment seen in constructor mode. *)
Definition visit_member_target (target : expr) (v : TreeVisitor C) :=
  match target with
  | Attribute (Name id) attr =>
      if String.eqb id "self" then on_classinfo (add_member attr) v else v
  | _ => v
  end.

(** One target of an assignment seen in a class body. *)
Definition visit_classvar_target (target : expr) (v : TreeVisitor C) :=
  match target with
  | Name id => on_classinfo (add_classvar id) v
  | _ => v
  end.

Definition visit_Assign (targets : list expr) (v : TreeVisitor C) :=
  if constructor v then
    fold_left (fun v t => visit_member_target t v) targets v
  else
    match classinfo v with
    | Some _ => fold_left (fun v t => visit_classvar_target t v) targets v
    | None => v
    end.

(** [TreeVisitor.visit]: dispatch on the node kind to [visit_ClassDef],
    [visit_FunctionDef], [visit_Assign] or [generic_visit]. *)
Fixpoint visit (n : node) (v : TreeVisitor C) {struct n} : TreeVisitor C :=
  let fix each (l : list node) (v : TreeVisitor C) : TreeVisitor C :=
    match l with
    | [] => v
    | child :: l' => each l' (visit child v)
    end in
  match n with
  | ClassDef name bs body =>
      let prev_classinfo := classinfo v in
      let v := set_classinfo (Some (new_ClassInfo name bs)) v in
      let v := each body v in
      let v := done v in
      set_classinfo prev_classinfo v
  | FunctionDef name a body =>
      match classinfo v with
      | Some _ =>
          let v :=
            if String.eqb name "__init__" then
              let v := set_constructor true v in
              let v := each body v in
              set_constructor false v
            else v in
          on_classinfo (add_method (mk_method name a)) v
      | None => v
      end
  | Assign targets => visit_Assign targets v
  | Other children => each children v
  end.

(** [for child in l: self.visit(child)]. *)
Definition visit_each (l : list node) (v : TreeVisitor C) : TreeVisitor C :=
  fold_left (fun v child => visit child v) l v.

End Visitor.

(** ** os.path (POSIX flavour), as far as [start_file] uses it

    [cwd] stands for [os.getcwd()], which [abspath] consults for a relative
    path. *)

Module OsPath.

Definition sep : ascii := "/"%char.
Definition extsep : ascii := "."%char.
Definition curdir : string := ".".
Definition pardir : string := "..".

Definition isabs (p : string) : bool := Py.startswith p "/".

(** One step of [normpath]'s loop over the components of an absolute
    path: empty and [.] components are skipped, [..] drops the last
    component kept so far (and is itself dropped at the root). *)
Definition norm_step (new_comps : list string) (comp : string) :=
  if String.eqb comp "" || String.eqb comp curdir then new_comps
  else if String.eqb comp pardir then removelast new_comps
  else new_comps ++ [comp].

(** [[x for x in abspath(p).split(sep) if x]]. *)
Definition abs_parts (cwd p : string) : list string :=
  fold_left norm_step
    ((if isabs p then [] else Py.split sep cwd) ++ Py.split sep p) [].

(** Length of [commonprefix([l1, l2])] on lists of components. *)
Fixpoint commonprefix_len (l1 l2 : list string) : nat :=
  match l1, l2 with
  | x :: l1', y :: l2' =>
      if String.eqb x y then S (commonprefix_len l1' l2') else 0
  | _, _ => 0
  end.

Definition relpath (cwd path start : string) : result string :=
  if negb (Py.truthy path) then Raise ValueError
  else
    let start_list := abs_parts cwd start in
    let path_list := abs_parts cwd path in
    let i := commonprefix_len start_list path_list in
    let rel_list :=
      repeat pardir (List.length start_list - i) ++ skipn i path_list in
    match rel_list with
    | [] => Ok curdir
    | _ => Ok (Py.join "/" rel_list)
    end.

Fixpoint all_dots (s : string) : bool :=
  match s with
  | EmptyString => true
  | String c r => Ascii.eqb c extsep && all_dots r
  end.

(** [splitext(p)[0]]: [p] without its extension; leading dots of the last
    component do not start an extension. *)
Definition splitext_root (p : string) : string :=
  match Py.rfind extsep p with
  | None => p
  | Some dotIndex =>
      let filenameIndex :=
        match Py.rfind sep p with Some sepIndex => S sepIndex | None => 0 end in
      if (filenameIndex <=? dotIndex)
         && negb (all_dots (substring filenameIndex
                                      (dotIndex - filenameIndex) p))
      then substring 0 dotIndex p
      else p
  end.

End OsPath.

(** ** astor.to_source on the modelled nodes

    The text ends with a newline, which the program strips with
    [rstrip]. *)

Module Astor.

Fixpoint expr_src (e : expr) : string :=
  match e with
  | Name id => id
  | Attribute value attr => expr_src value +++ "." +++ attr
  | Tuple elts =>
      "(" +++ Py.join ", " (map expr_src elts)
          +++ match elts with [_] => "," | _ => "" end +++ ")"
  | OtherExpr src => src
  end.

Definition to_source (e : expr) : string := expr_src e +++ Py.LF.

Definition star (prefix : string) (o : option string) : list string :=
  match o with
  | Some name => [prefix +++ name]
  | None => []
  end.

Definition to_source_args (a : arguments) : string :=
  Py.join ", " (args a ++ star "*" (vararg a) ++ star "**" (kwarg a))
  +++ Py.LF.

End Astor.

(** ** PUML_Generator *)

(** puml indentation unit. *)
Definition TAB : string := "  ".

(** One call of [indent]: the namespace depth at the call and the arguments
    handed to [print]. *)
Record out_line : Type := mk_out_line {
  ol_depth : nat;
  ol_args : list string
}.

(** The text a call of [indent] writes: the indentation, the arguments
    separated by a space, and the line end. *)
Definition render (l : out_line) : string :=
  Py.repeat_str TAB (ol_depth l) +++ Py.join " " (ol_args l) +++ Py.LF.

Definition document (lines : list out_line) : string :=
  String.concat "" (map render lines).

(** The two options read from the [puml] section of the configuration, as
    [self.config.get('puml', ..., fallback=None)] returns them; [None] is the
    [fallback].  A configuration for which the lookup itself raises (a value
    that cannot be interpolated) is not represented. *)
Record Config : Type := mk_Config {
  prolog : option string;
  epilog : option string
}.

Record PUML_Generator : Type := mk_PUML_Generator {
  dest : list out_line;
  root : option string;
  config : option Config;
  namespaces : list string;
  sourcename : option string
}.

(** [PUML_Generator.__init__(dest, root, config)] on an empty [dest]. *)
Definition new_PUML_Generator (r : option string) (cfg : option Config) :=
  mk_PUML_Generator [] r cfg [] None.

Definition depth (g : PUML_Generator) : nat := List.length (namespaces g).

Definition indent (a : list string) (g : PUML_Generator) : PUML_Generator :=
  mk_PUML_Generator (dest g ++ [mk_out_line (depth g) a])
                    (root g) (config g) (namespaces g) (sourcename g).

Definition set_namespaces (ns : list string) (g : PUML_Generator) :=
  mk_PUML_Generator (dest g) (root g) (config g) ns (sourcename g).

Definition set_sourcename (o : option string) (g : PUML_Generator) :=
  mk_PUML_Generator (dest g) (root g) (config g) (namespaces g) o.

Definition push_ns (name : string) (g : PUML_Generator) : PUML_Generator :=
  let g := indent ["namespace " +++ name +++ " {"] g in
  set_namespaces (namespaces g ++ [name]) g.

(** [self.namespaces.pop()]. *)
Definition pop (g : PUML_Generator) : result PUML_Generator :=
  match namespaces g with
  | [] => Raise IndexError
  | _ :: _ => Ok (set_namespaces (removelast (namespaces g)) g)
  end.

Fixpoint pop_ns (count : nat) (g : PUML_Generator) : result PUML_Generator :=
  match count with
  | 0 => Ok g
  | S count' =>
      g <- pop g ;;
      pop_ns count' (indent ["}"] g)
  end.

(** The loop of [start_file] that determines the common path: [stack] is what
    is left of [self.namespaces] to iterate over, [n] the counter. *)
Fixpoint common_path (stack target : list string) (n : nat) : nat :=
  match stack with
  | [] => n
  | d :: stack' =>
      if List.length target <=? n then n
      else match nth_error target n with
           | Some t => if String.eqb d t then common_path stack' target (S n)
                       else n
           | None => n
           end
  end.

(** The part of [start_file] that follows the computation of the target
    [namespaces] list. *)
Definition enter_namespaces (target : list string) (g : PUML_Generator)
  : result PUML_Generator :=
  let n := common_path (namespaces g) target 0 in
  g <- pop_ns (List.length (namespaces g) - n) g ;;
  Ok (fold_left (fun g d => push_ns d g) (skipn n target) g).

(** Truth value of [self.root]: neither [None] nor empty. *)
Definition root_dir (g : PUML_Generator) : option string :=
  match root g with
  | Some r => if Py.truthy r then Some r else None
  | None => None
  end.

(** The target namespaces of a source file under a root directory. *)
Definition target_namespaces (cwd r src : string) : result (list string) :=
  rel <- OsPath.relpath cwd src r ;;
  Ok (Py.split OsPath.sep (OsPath.splitext_root rel)).

Definition start_file (cwd src : string) (g : PUML_Generator)
  : result PUML_Generator :=
  let g := set_sourcename (Some src) g in
  match root_dir g with
  | Some r =>
      target <- target_namespaces cwd r src ;;
      enter_namespaces target g
  | None => Ok g
  end.

Definition end_file (g : PUML_Generator) : PUML_Generator :=
  set_sourcename None g.

Definition header (g : PUML_Generator) : PUML_Generator :=
  let g := indent ["@startuml"] g in
  match config g with
  | Some cfg =>
      match prolog cfg with
      | Some p => if Py.truthy p then indent [p +++ Py.LF] g else g
      | None => g
      end
  | None => g
  end.

(** [while self.namespaces: self.pop_ns(self.depth)], with a bound on the
    number of iterations. *)
Fixpoint close_namespaces (bound : nat) (g : PUML_Generator)
  : result PUML_Generator :=
  match namespaces g with
  | [] => Ok g
  | _ :: _ =>
      match bound with
      | 0 => Raise LoopBound
      | S bound' =>
          g <- pop_ns (depth g) g ;;
          close_namespaces bound' g
      end
  end.

Definition footer (g : PUML_Generator) : result PUML_Generator :=
  g <- close_namespaces 1 g ;;
  let g :=
    match config g with
    | Some cfg =>
        match epilog cfg with
        | Some e => if Py.truthy e then indent [e +++ Py.LF] g else g
        | None => g
        end
    | None => g
    end in
  Ok (indent ["@enduml"] g).

(** The inheritance line of one base, unless it renders as [object]. *)
Definition print_base (name : string) (g : PUML_Generator) (base : expr) :=
  let expr := Py.rstrip (Astor.to_source base) in
  if negb (String.eqb expr "object") then indent [expr; "<|--"; name] g
  else g.

Definition print_classvar (g : PUML_Generator) (m : string) :=
  indent [TAB +++ "{static}"; visibility m +++ m] g.

Definition print_member (g : PUML_Generator) (m : string) :=
  indent [TAB +++ visibility m +++ m] g.

Definition print_method (g : PUML_Generator) (m : method) :=
  let arglist := Py.rstrip (Astor.to_source_args (m_args m)) in
  indent [TAB +++ visibility (m_name m) +++ m_name m
              +++ "(" +++ arglist +++ ")"] g.

#[export] Instance PUML_print_classinfo : Context PUML_Generator :=
  fun ci g =>
    let g := fold_left (print_base (classname ci)) (bases ci) g in
    let g := indent ["class"; classname ci; "{"] g in
    let g := fold_left print_classvar (classvars ci) g in
    let g := fold_left print_member (members ci) g in
    let g := fold_left print_method (methods ci) g in
    indent ["}" +++ Py.LF] g.

(** ** The main program

    [cwd], [read_file] and [ast_parse] stand for the process's working
    directory, [open(srcfile).read()] and [ast.parse]: the file system and
    the parser are outside the program. *)

Definition set_context {C : Type} (c : C) (v : TreeVisitor C) : TreeVisitor C :=
  mk_TreeVisitor c (classinfo v) (constructor v).

(** What a run leaves behind: the text the program itself prints on
    standard output (the report of the [except] handler), the exception that
    ended it if one was not caught, and the generator once the footer is
    written.  The text of the generator is kept in its [dest], apart from
    [stdout], also when the output stream is standard output (no [-o]
    option). *)
Record outcome : Type := mk_outcome {
  stdout : string;
  uncaught : option exn;
  written : option PUML_Generator
}.

(** [str(n)]. *)
Definition str (n : nat) : string :=
  DecimalString.NilEmpty.string_of_uint (Nat.to_uint n).

(** [cl_args.py_file.name]: [py_file] is declared with [nargs='+'], so it is
    a list of strings, and a list has no attribute [name]. *)
Definition py_file_name (py_file : list string) : result string :=
  Raise (AttributeError "list" "name").

Section Main.
Variable cwd : string.
Variable read_file : string -> result string.
Variable ast_parse : string -> result node.

(** The body of the loop over [cl_args.py_file]; [gen] is the visitor's
    context. *)
Definition process_file (visitor : TreeVisitor PUML_Generator)
           (srcfile : string) : result (TreeVisitor PUML_Generator) :=
  gen <- start_file cwd srcfile (context visitor) ;;
  src <- read_file srcfile ;;
  tree <- ast_parse src ;;
  let visitor := visit tree (set_context gen visitor) in
  Ok (set_context (end_file (context visitor)) visitor).

Fixpoint process_files (visitor : TreeVisitor PUML_Generator)
         (py_file : list string) : result (TreeVisitor PUML_Generator) :=
  match py_file with
  | [] => Ok visitor
  | srcfile :: rest =>
      visitor <- process_file visitor srcfile ;;
      process_files visitor rest
  end.

(** The [try] block.  [cfg] is the [ConfigParser], which is always true. *)
Definition run (root_arg : option string) (cfg : Config)
           (py_file : list string) : result PUML_Generator :=
  let gen := new_PUML_Generator root_arg (Some cfg) in
  let visitor := new_TreeVisitor gen in
  let visitor := set_context (header (context visitor)) visitor in
  visitor <- process_files visitor py_file ;;
  footer (context visitor).

(** The [try] block with its [except SyntaxError] handler. *)
Definition main (root_arg : option string) (cfg : Config)
           (py_file : list string) : outcome :=
  match run root_arg cfg py_file with
  | Ok gen => mk_outcome "" None (Some gen)
  | Raise (SyntaxError lineno offset text) =>
      let out := "Syntax error in " in
      match py_file_name py_file with
      | Ok name =>
          mk_outcome (out +++ name +++ ":" +++ str lineno +++ ":"
                          +++ str offset +++ ": " +++ text +++ Py.LF)
                     None None
      | Raise e => mk_outcome out (Some e) None
      end
  | Raise e => mk_outcome "" (Some e) None
  end.

End Main.

(** * Properties *)

(** ** Strings *)

Lemma str_app_assoc (a b c : string) : (a +++ b) +++ c = a +++ b +++ c.
Proof. induction a as [|x a IH]; cbn; [|rewrite IH]; reflexivity. Qed.

Lemma str_app_nil_r (a : string) : a +++ "" = a.
Proof. induction a as [|x a IH]; cbn; [|rewrite IH]; reflexivity. Qed.

(** ** The visitor's equations *)

Section VisitorEquations.
Context {C : Type} {print : Context C}.

Lemma visit_each_nil (v : TreeVisitor C) : visit_each [] v = v.
Proof. reflexivity. Qed.

Lemma visit_each_cons (c : node) (l : list node) (v : TreeVisitor C) :
  visit_each (c :: l) v = visit_each l (visit c v).
Proof. reflexivity. Qed.

Lemma visit_each_app (l1 l2 : list node) (v : TreeVisitor C) :
  visit_each (l1 ++ l2) v = visit_each l2 (visit_each l1 v).
Proof. apply fold_left_app. Qed.

(** The local loop of [visit] is [visit_each]. *)
Lemma each_is_visit_each (l : list node) (v : TreeVisitor C) :
  (fix each (l : list node) (v : TreeVisitor C) : TreeVisitor C :=
     match l with
     | [] => v
     | child :: l' => each l' (visit child v)
     end) l v = visit_each l v.
Proof.
  revert v; induction l as [|c l IH]; intro v; [reflexivity|].
  rewrite visit_each_cons; exact (IH (visit c v)).
Qed.

Lemma visit_ClassDef (name : string) (bs : list expr) (body : list node)
      (v : TreeVisitor C) :
  visit (ClassDef name bs body) v =
  set_classinfo (classinfo v)
    (done (visit_each body
             (set_classinfo (Some (new_ClassInfo name bs)) v))).
Proof. cbn [visit]; rewrite each_is_visit_each; reflexivity. Qed.

Lemma visit_FunctionDef_outside (name : string) (a : arguments)
      (body : list node) (v : TreeVisitor C) :
  classinfo v = None -> visit (FunctionDef name a body) v = v.
Proof. intro H; cbn [visit]; rewrite H; reflexivity. Qed.

Lemma visit_FunctionDef_init (a : arguments) (body : list node)
      (v : TreeVisitor C) :
  classinfo v <> None ->
  visit (FunctionDef "__init__" a body) v =
  on_classinfo (add_method (mk_method "__init__" a))
    (set_constructor false (visit_each body (set_constructor true v))).
Proof.
  intro H; cbn [visit]; destruct (classinfo v); [|congruence].
  cbn [String.eqb Ascii.eqb Bool.eqb]; rewrite each_is_visit_each; reflexivity.
Qed.

Lemma visit_FunctionDef_method (name : string) (a : arguments)
      (body : list node) (v : TreeVisitor C) :
  classinfo v <> None -> name <> "__init__" ->
  visit (FunctionDef name a body) v =
  on_classinfo (add_method (mk_method name a)) v.
Proof.
  intros H Hn; cbn [visit]; destruct (classinfo v); [|congruence].
  apply String.eqb_neq in Hn; rewrite Hn; reflexivity.
Qed.

Lemma visit_Other (children : list node) (v : TreeVisitor C) :
  visit (Other children) v = visit_each children v.
Proof. cbn [visit]; apply each_is_visit_each. Qed.

Lemma visit_Assign_eq (targets : list expr) (v : TreeVisitor C) :
  visit (Assign targets) v = visit_Assign targets v.
Proof. reflexivity. Qed.

End VisitorEquations.

(** ** What the generator writes *)

(** Appending lines to [dest], everything else as it is. *)
Definition emit (ls : list out_line) (g : PUML_Generator) : PUML_Generator :=
  mk_PUML_Generator (dest g ++ ls)
                    (root g) (config g) (namespaces g) (sourcename g).

Lemma emit_nil (g : PUML_Generator) : emit [] g = g.
Proof. destruct g; unfold emit; cbn; rewrite app_nil_r; reflexivity. Qed.

Lemma emit_emit (l1 l2 : list out_line) (g : PUML_Generator) :
  emit l2 (emit l1 g) = emit (l1 ++ l2) g.
Proof. unfold emit; cbn; rewrite app_assoc; reflexivity. Qed.

Lemma depth_emit (ls : list out_line) (g : PUML_Generator) :
  depth (emit ls g) = depth g.
Proof. reflexivity. Qed.

Lemma indent_emit (a : list string) (g : PUML_Generator) :
  indent a g = emit [mk_out_line (depth g) a] g.
Proof. reflexivity. Qed.

(** A loop whose body writes at most a few lines per element writes the
    lines of the elements one after the other. *)
Lemma fold_left_emit {A : Type} (step : PUML_Generator -> A -> PUML_Generator)
      (lines : nat -> A -> list out_line) :
  (forall g x, step g x = emit (lines (depth g) x) g) ->
  forall l g, fold_left step l g = emit (flat_map (lines (depth g)) l) g.
Proof.
  intros Hstep l; induction l as [|x l IH]; intro g; cbn [fold_left flat_map].
  - symmetry; apply emit_nil.
  - rewrite IH, Hstep, emit_emit, depth_emit; reflexivity.
Qed.

(** The rendered source of a base, as [print_classinfo] compares it. *)
Definition base_expr (base : expr) : string :=
  Py.rstrip (Astor.to_source base).

(** The inheritance lines of a class at depth [d], in the words of the
    specification: one line per base that does not render as [object], in
    declaration order. *)
Definition inheritance_lines (d : nat) (ci : ClassInfo) : list out_line :=
  map (fun e => mk_out_line d [e; "<|--"; classname ci])
      (filter (fun e => negb (String.eqb e "object"))
              (map base_expr (bases ci))).

Definition classvar_line (d : nat) (m : string) : out_line :=
  mk_out_line d [TAB +++ "{static}"; visibility m +++ m].

Definition member_line (d : nat) (m : string) : out_line :=
  mk_out_line d [TAB +++ visibility m +++ m].

Definition method_line (d : nat) (m : method) : out_line :=
  mk_out_line d [TAB +++ visibility (m_name m) +++ m_name m +++ "("
                     +++ Py.rstrip (Astor.to_source_args (m_args m)) +++ ")"].

(** The block of a class at depth [d]: header, static members, instance
    members, methods, closing line. *)
Definition class_block (d : nat) (ci : ClassInfo) : list out_line :=
  mk_out_line d ["class"; classname ci; "{"]
  :: map (classvar_line d) (classvars ci)
  ++ map (member_line d) (members ci)
  ++ map (method_line d) (methods ci)
  ++ [mk_out_line d ["}" +++ Py.LF]].

Definition class_lines (d : nat) (ci : ClassInfo) : list out_line :=
  inheritance_lines d ci ++ class_block d ci.

Lemma flat_map_singleton {A B : Type} (f : A -> B) (l : list A) :
  flat_map (fun x => [f x]) l = map f l.
Proof. induction l as [|x l IH]; cbn; [|rewrite IH]; reflexivity. Qed.

Lemma flat_map_bases (d : nat) (name : string) (bs : list expr) :
  flat_map (fun b => if negb (String.eqb (base_expr b) "object")
                     then [mk_out_line d [base_expr b; "<|--"; name]]
                     else []) bs
  = map (fun e => mk_out_line d [e; "<|--"; name])
        (filter (fun e => negb (String.eqb e "object")) (map base_expr bs)).
Proof.
  induction bs as [|b bs IH]; cbn [flat_map map filter]; [reflexivity|].
  destruct (negb (String.eqb (base_expr b) "object")); cbn; rewrite IH;
    reflexivity.
Qed.

Lemma print_classinfo_emit (ci : ClassInfo) (g : PUML_Generator) :
  print_classinfo ci g = emit (class_lines (depth g) ci) g.
Proof.
  unfold print_classinfo, PUML_print_classinfo; cbv zeta.
  rewrite (fold_left_emit (print_base (classname ci))
             (fun d b => if negb (String.eqb (base_expr b) "object")
                         then [mk_out_line d [base_expr b; "<|--"; classname ci]]
                         else [])).
  2:{ intros g0 b; unfold print_base; fold (base_expr b).
      destruct (negb (String.eqb (base_expr b) "object"));
        [apply indent_emit | symmetry; apply emit_nil]. }
  rewrite (fold_left_emit print_classvar (fun d m => [classvar_line d m]))
    by (intros; apply indent_emit).
  rewrite (fold_left_emit print_member (fun d m => [member_line d m]))
    by (intros; apply indent_emit).
  rewrite (fold_left_emit print_method (fun d m => [method_line d m]))
    by (intros; apply indent_emit).
  rewrite !indent_emit, !depth_emit, !emit_emit.
  rewrite !flat_map_singleton, flat_map_bases.
  unfold class_lines, class_block, inheritance_lines.
  f_equal; rewrite <- !app_assoc; reflexivity.
Qed.

(** C1.  Every call of [print_classinfo] appends to the output, and to
    nothing else, the inheritance lines of the class followed at once by its
    block.  The inheritance lines are one line [<BaseExpr> <|-- <ClassName>]
    for each base whose rendered source is not [object], with the rendered
    source verbatim and in declaration order; a base that renders as [object]
    gets no line. *)
Theorem C1_inheritance_lines (ci : ClassInfo) (g : PUML_Generator) :
  dest (print_classinfo ci g)
  = dest g
    ++ map (fun e => mk_out_line (depth g) [e; "<|--"; classname ci])
           (filter (fun e => negb (String.eqb e "object"))
                   (map base_expr (bases ci)))
    ++ class_block (depth g) ci
  /\ (forall e,
         render (mk_out_line (depth g) [e; "<|--"; classname ci])
         = Py.repeat_str TAB (depth g)
             +++ e +++ " <|-- " +++ classname ci +++ Py.LF)
  /\ (forall b, In b (bases ci) -> base_expr b = "object" ->
        ~ In (mk_out_line (depth g) [base_expr b; "<|--"; classname ci])
             (inheritance_lines (depth g) ci))
  /\ (forall b, In b (bases ci) -> base_expr b <> "object" ->
        In (mk_out_line (depth g) [base_expr b; "<|--"; classname ci])
           (inheritance_lines (depth g) ci)).
Proof.
  split; [|split; [|split]].
  - rewrite print_classinfo_emit; cbn [emit dest].
    unfold class_lines, inheritance_lines; reflexivity.
  - intro e; unfold render, Py.join; cbn [ol_depth ol_args String.concat].
    rewrite (str_app_assoc e); reflexivity.
  - intros b _ Hobj Hin; unfold inheritance_lines in Hin.
    apply in_map_iff in Hin; destruct Hin as [e [He Hf]].
    apply filter_In in Hf; destruct Hf as [_ Hf].
    assert (e = "object") by congruence; subst e; discriminate Hf.
  - intros b Hb Hobj; unfold inheritance_lines.
    apply in_map_iff; exists (base_expr b); split; [reflexivity|].
    apply filter_In; split; [apply in_map; exact Hb|].
    apply String.eqb_neq in Hobj; rewrite Hobj; reflexivity.
Qed.

Lemma C1_inheritance_lines_witness :
  dest (print_classinfo
          (new_ClassInfo "Dog" [Name "object"; Name "Animal";
                                OtherExpr "Generic[T]"])
          (new_PUML_Generator None None))
  = [mk_out_line 0 ["Animal"; "<|--"; "Dog"];
     mk_out_line 0 ["Generic[T]"; "<|--"; "Dog"];
     mk_out_line 0 ["class"; "Dog"; "{"];
     mk_out_line 0 ["}" +++ Py.LF]].
Proof.
  exact (proj1 (C1_inheritance_lines
                  (new_ClassInfo "Dog" [Name "object"; Name "Animal";
                                        OtherExpr "Generic[T]"])
                  (new_PUML_Generator None None))).
Defined.

(** ** Namespaces *)

(** [dest] extended by [ls] and [namespaces] replaced by [ns]. *)
Definition moved (ls : list out_line) (ns : list string) (g : PUML_Generator) :=
  mk_PUML_Generator (dest g ++ ls) (root g) (config g) ns (sourcename g).

(** The lines [count] closes write when [d] namespaces are open: innermost
    first, each at the depth its namespace was opened at. *)
Fixpoint close_lines (d count : nat) : list out_line :=
  match count with
  | 0 => []
  | S count' => mk_out_line (d - 1) ["}"] :: close_lines (d - 1) count'
  end.

(** The lines opening [names] one inside the other, the first at depth
    [d]. *)
Fixpoint open_lines (d : nat) (names : list string) : list out_line :=
  match names with
  | [] => []
  | name :: names' =>
      mk_out_line d ["namespace " +++ name +++ " {"] :: open_lines (S d) names'
  end.

Lemma moved_id (g : PUML_Generator) : moved [] (namespaces g) g = g.
Proof. destruct g; unfold moved; cbn; rewrite app_nil_r; reflexivity. Qed.

Lemma pop_ns_ok (count : nat) (g : PUML_Generator) :
  count <= depth g ->
  pop_ns count g
  = Ok (moved (close_lines (depth g) count)
              (firstn (depth g - count) (namespaces g)) g).
Proof.
  revert g; induction count as [|k IH]; intros g Hk; cbn [pop_ns close_lines].
  - unfold depth; rewrite Nat.sub_0_r, firstn_all; rewrite moved_id; reflexivity.
  - unfold pop. unfold depth in Hk.
    destruct (namespaces g) as [|x ns] eqn:E; [cbn in Hk; lia|].
    cbn [bind]. rewrite <- E.
    set (g1 := indent ["}"] (set_namespaces (removelast (namespaces g)) g)).
    assert (Hd : depth g1 = depth g - 1).
    { unfold g1, depth; cbn [indent set_namespaces namespaces].
      rewrite removelast_firstn_len, length_firstn; lia. }
    rewrite IH by (rewrite Hd; unfold depth; rewrite E; cbn in *; lia).
    rewrite Hd. unfold moved, g1; cbn [indent set_namespaces dest root config
                                         namespaces sourcename].
    f_equal; f_equal.
    + unfold depth at 1; cbn [set_namespaces namespaces].
      rewrite removelast_firstn_len, length_firstn, <- app_assoc.
      unfold depth. replace (Nat.min (Nat.pred (List.length (namespaces g)))
                                     (List.length (namespaces g)))
        with (List.length (namespaces g) - 1) by lia.
      reflexivity.
    + rewrite removelast_firstn_len, firstn_firstn. f_equal.
      unfold depth; lia.
Qed.

Lemma push_all (names : list string) (g : PUML_Generator) :
  fold_left (fun g d => push_ns d g) names g
  = moved (open_lines (depth g) names) (namespaces g ++ names) g.
Proof.
  revert g; induction names as [|x names IH]; intro g;
    cbn [fold_left open_lines].
  - rewrite app_nil_r; symmetry; apply moved_id.
  - rewrite IH. unfold push_ns, moved, depth;
      cbn [indent set_namespaces dest root config namespaces sourcename].
    rewrite length_app, Nat.add_1_r, <- !app_assoc. reflexivity.
Qed.

(** The longest common prefix of two segment sequences: comparison element
    by element from index 0, stopping at the first mismatch or at the end of
    either sequence. *)
Definition common_prefix_length (l1 l2 : list string) : nat :=
  OsPath.commonprefix_len l1 l2.

Lemma commonprefix_len_nil_r (l : list string) :
  OsPath.commonprefix_len l [] = 0.
Proof. destruct l; reflexivity. Qed.

Lemma common_path_spec (stack target : list string) (n : nat) :
  n <= List.length target ->
  common_path stack target n
  = n + OsPath.commonprefix_len stack (skipn n target).
Proof.
  revert n; induction stack as [|d stack IH]; intros n Hn; cbn [common_path].
  - cbn; lia.
  - destruct (Nat.leb_spec (List.length target) n) as [Hle|Hlt].
    + rewrite skipn_all2 by lia. rewrite commonprefix_len_nil_r; lia.
    + destruct (nth_error target n) as [t|] eqn:Ht.
      2:{ apply nth_error_None in Ht; lia. }
      assert (Hs : skipn n target = t :: skipn (S n) target).
      { clear - Ht. revert target Ht; induction n as [|n IHn];
          intros [|y target] Ht; cbn in Ht; try discriminate.
        - injection Ht as ->; reflexivity.
        - apply (IHn target Ht). }
      rewrite Hs; cbn [OsPath.commonprefix_len].
      destruct (String.eqb d t); [rewrite IH by lia; lia | lia].
Qed.

Lemma commonprefix_len_le (l1 l2 : list string) :
  OsPath.commonprefix_len l1 l2 <= List.length l1
  /\ OsPath.commonprefix_len l1 l2 <= List.length l2.
Proof.
  revert l2; induction l1 as [|x l1 IH]; intros [|y l2]; cbn; try lia.
  destruct (String.eqb x y); [specialize (IH l2) | ]; lia.
Qed.

Lemma commonprefix_len_firstn (l1 l2 : list string) :
  firstn (OsPath.commonprefix_len l1 l2) l1
  = firstn (OsPath.commonprefix_len l1 l2) l2.
Proof.
  revert l2; induction l1 as [|x l1 IH]; intros [|y l2]; cbn; try reflexivity.
  destruct (String.eqb_spec x y) as [->|_]; [cbn; rewrite IH|]; reflexivity.
Qed.

(** [enter_namespaces] never raises: it closes the namespaces beyond the
    common prefix, innermost first, opens the remaining target segments in
    order, and leaves the stack equal to the target. *)
Lemma enter_namespaces_ok (target : list string) (g : PUML_Generator) :
  let n := common_prefix_length (namespaces g) target in
  enter_namespaces target g
  = Ok (moved (close_lines (depth g) (depth g - n)
               ++ open_lines n (skipn n target)) target g).
Proof.
  intro n. unfold enter_namespaces.
  rewrite common_path_spec by lia. cbn [Nat.add skipn].
  fold (common_prefix_length (namespaces g) target); fold n; fold (depth g).
  destruct (commonprefix_len_le (namespaces g) target) as [H1 H2].
  fold (common_prefix_length (namespaces g) target) in H1, H2; fold n in H1, H2.
  fold (depth g) in H1.
  rewrite pop_ns_ok by lia. cbn [bind]. rewrite push_all.
  unfold moved at 1 2; cbn [dest root config namespaces sourcename].
  unfold moved. f_equal. f_equal.
  - cbn [dest]. rewrite <- app_assoc. do 2 f_equal.
    unfold depth at 1; cbn [namespaces].
    rewrite length_firstn. fold (depth g). f_equal; lia.
  - cbn [namespaces]. replace (depth g - (depth g - n)) with n by lia.
    unfold n, common_prefix_length. rewrite commonprefix_len_firstn.
    apply firstn_skipn.
Qed.

(** ** Namespace markers in the output *)

Fixpoint last_char (s : string) : option ascii :=
  match s with
  | EmptyString => None
  | String c r =>
      match last_char r with
      | Some d => Some d
      | None => Some c
      end
  end.

(** A namespace-open marker: a line written from the single argument
    [namespace <name> {]. *)
Definition is_open (l : out_line) : bool :=
  match ol_args l with
  | [s] => Py.startswith s "namespace "
           && match last_char s with
              | Some c => Ascii.eqb c "{"
              | None => false
              end
  | _ => false
  end.

(** A namespace-close marker: a line written from the single argument [}].
    (The closing line of a class block is written from [}] followed by a
    newline.) *)
Definition is_close (l : out_line) : bool :=
  match ol_args l with
  | [s] => String.eqb s "}"
  | _ => false
  end.

Definition count_open (ls : list out_line) : nat :=
  List.length (filter is_open ls).

Definition count_close (ls : list out_line) : nat :=
  List.length (filter is_close ls).

(** Reading the markers of [ls] as brackets, with [k] namespaces open at the
    start: the number open at the end, or [None] if a close marker comes with
    none open. *)
Fixpoint nesting (ls : list out_line) (k : nat) : option nat :=
  match ls with
  | [] => Some k
  | l :: ls' =>
      if is_open l then nesting ls' (S k)
      else if is_close l then
             match k with
             | 0 => None
             | S k' => nesting ls' k'
             end
           else nesting ls' k
  end.

(** Lines that are no marker. *)
Definition plain (ls : list out_line) : Prop :=
  Forall (fun l => is_open l = false /\ is_close l = false) ls.

Lemma last_char_app (a : string) (c : ascii) (b : string) :
  last_char (a +++ String c b) = last_char (String c b).
Proof.
  induction a as [|x a IH]; [reflexivity|].
  cbn [String.append last_char]; rewrite IH.
  cbn [last_char]; destruct (last_char b); reflexivity.
Qed.

Lemma is_open_namespace (d : nat) (name : string) :
  is_open (mk_out_line d ["namespace " +++ name +++ " {"]) = true.
Proof.
  unfold is_open; cbn [ol_args].
  replace (Py.startswith ("namespace " +++ name +++ " {") "namespace ")
    with true by reflexivity.
  cbn [String.append].
  change (String "n" (String "a" (String "m" (String "e" (String "s"
           (String "p" (String "a" (String "c" (String "e" (String " "
           (name +++ " {")))))))))))
    with ("namespace " +++ name +++ String " " (String "{" "")).
  rewrite <- str_app_assoc, last_char_app; reflexivity.
Qed.

Lemma is_close_namespace (d : nat) (name : string) :
  is_close (mk_out_line d ["namespace " +++ name +++ " {"]) = false.
Proof. reflexivity. Qed.

Lemma count_open_app (l1 l2 : list out_line) :
  count_open (l1 ++ l2) = count_open l1 + count_open l2.
Proof. unfold count_open; rewrite filter_app, length_app; reflexivity. Qed.

Lemma count_close_app (l1 l2 : list out_line) :
  count_close (l1 ++ l2) = count_close l1 + count_close l2.
Proof. unfold count_close; rewrite filter_app, length_app; reflexivity. Qed.

Lemma count_close_lines (d count : nat) :
  count_close (close_lines d count) = count
  /\ count_open (close_lines d count) = 0.
Proof.
  revert d; induction count as [|k IH]; intro d; [split; reflexivity|].
  destruct (IH (d - 1)) as [Hc Ho]; unfold count_close, count_open in *.
  cbn; rewrite Hc, Ho; split; reflexivity.
Qed.

Lemma count_open_lines (d : nat) (names : list string) :
  count_open (open_lines d names) = List.length names
  /\ count_close (open_lines d names) = 0.
Proof.
  revert d; induction names as [|x names IH]; intro d; [split; reflexivity|].
  destruct (IH (S d)) as [Ho Hc]; unfold count_close, count_open in *.
  cbn [open_lines filter]; rewrite is_open_namespace, is_close_namespace.
  cbn [List.length]; rewrite Ho, Hc; split; reflexivity.
Qed.

Lemma nesting_app (l1 l2 : list out_line) (k : nat) :
  nesting (l1 ++ l2) k
  = match nesting l1 k with
    | Some j => nesting l2 j
    | None => None
    end.
Proof.
  revert k; induction l1 as [|l l1 IH]; intro k; cbn [nesting app];
    [reflexivity|].
  destruct (is_open l); [apply IH|].
  destruct (is_close l); [destruct k; [reflexivity|apply IH] | apply IH].
Qed.

Lemma nesting_close_lines (d count j : nat) :
  nesting (close_lines d count) (count + j) = Some j.
Proof.
  revert d; induction count as [|k IH]; intro d; [reflexivity|].
  cbn [close_lines nesting Nat.add].
  replace (is_open (mk_out_line (d - 1) ["}"])) with false by reflexivity.
  replace (is_close (mk_out_line (d - 1) ["}"])) with true by reflexivity.
  apply IH.
Qed.

Lemma nesting_open_lines (d : nat) (names : list string) (j : nat) :
  nesting (open_lines d names) j = Some (j + List.length names).
Proof.
  revert d j; induction names as [|x names IH]; intros d j;
    cbn [open_lines nesting List.length].
  - f_equal; lia.
  - rewrite is_open_namespace, IH; f_equal; lia.
Qed.

Lemma nesting_plain (ls : list out_line) (k : nat) :
  plain ls -> nesting ls k = Some k.
Proof.
  induction 1 as [|l ls [Ho Hc] _ IH]; cbn [nesting]; [reflexivity|].
  rewrite Ho, Hc; exact IH.
Qed.

Lemma count_plain (ls : list out_line) :
  plain ls -> count_open ls = 0 /\ count_close ls = 0.
Proof.
  unfold count_open, count_close.
  induction 1 as [|l ls [Ho Hc] _ IH]; cbn [filter]; [split; reflexivity|].
  rewrite Ho, Hc; exact IH.
Qed.

Lemma open_not_close (l : out_line) : is_open l = true -> is_close l = false.
Proof.
  unfold is_open, is_close; destruct (ol_args l) as [|s [|? ?]]; try discriminate.
  destruct (String.eqb_spec s "}") as [->|_]; [discriminate|reflexivity].
Qed.

(** A well-bracketed sequence has as many open markers as close markers,
    up to the namespaces open at its two ends. *)
Lemma nesting_counts (ls : list out_line) (k j : nat) :
  nesting ls k = Some j -> k + count_open ls = j + count_close ls.
Proof.
  unfold count_open, count_close.
  revert k; induction ls as [|l ls IH]; intros k H; cbn [nesting filter] in *.
  - injection H as <-; reflexivity.
  - destruct (is_open l) eqn:Ho.
    + apply IH in H. rewrite (open_not_close l Ho); cbn [List.length]; lia.
    + destruct (is_close l) eqn:Hc.
      * destruct k as [|k]; [discriminate|].
        apply IH in H; cbn [List.length]; lia.
      * apply IH in H; lia.
Qed.

(** ** Files below a root directory *)

Lemma commonprefix_len_app (p l1 l2 : list string) :
  OsPath.commonprefix_len (p ++ l1) (p ++ l2)
  = List.length p + OsPath.commonprefix_len l1 l2.
Proof.
  induction p as [|x p IH]; [reflexivity|].
  cbn [app OsPath.commonprefix_len List.length].
  rewrite String.eqb_refl, IH; reflexivity.
Qed.

(** The components of the working directory, as [abspath] prefixes them to
    a relative path. *)
Definition cwd_parts (cwd : string) : list string :=
  fold_left OsPath.norm_step (Py.split OsPath.sep cwd) [].

(** [relpath] of a path whose components extend those of [start] by
    [rest]. *)
Lemma relpath_below (cwd path start : string) (root_parts rest : list string) :
  Py.truthy path = true ->
  OsPath.abs_parts cwd start = cwd_parts cwd ++ root_parts ->
  OsPath.abs_parts cwd path = cwd_parts cwd ++ root_parts ++ rest ->
  rest <> [] ->
  OsPath.relpath cwd path start = Ok (Py.join "/" rest).
Proof.
  intros Hp Hs Hpa Hr; unfold OsPath.relpath; rewrite Hp, Hs, Hpa; cbn [negb].
  rewrite app_assoc. set (A := cwd_parts cwd ++ root_parts).
  assert (Hi : OsPath.commonprefix_len A (A ++ rest) = List.length A).
  { pose proof (commonprefix_len_app A [] rest) as H.
    rewrite app_nil_r in H; rewrite H; cbn; lia. }
  rewrite Hi, Nat.sub_diag, skipn_app, skipn_all, Nat.sub_diag.
  cbn [repeat skipn app]. destruct rest; [congruence|reflexivity].
Qed.

Ltac relative_parts cwd :=
  unfold OsPath.abs_parts; cbn [OsPath.isabs Py.startswith Ascii.eqb Bool.eqb
                                  andb];
  rewrite fold_left_app; fold (cwd_parts cwd);
  generalize (cwd_parts cwd); intro prefix; cbn;
  rewrite <- ?app_assoc; reflexivity.

Lemma target_a_b_X (cwd : string) :
  target_namespaces cwd "a" "a/b/X.py" = Ok ["b"; "X"].
Proof.
  unfold target_namespaces.
  rewrite (@relpath_below cwd "a/b/X.py" "a" ["a"] ["b"; "X.py"]);
    [reflexivity | reflexivity | relative_parts cwd | relative_parts cwd
     | discriminate].
Qed.

Lemma target_a_c_Y (cwd : string) :
  target_namespaces cwd "a" "a/c/Y.py" = Ok ["c"; "Y"].
Proof.
  unfold target_namespaces.
  rewrite (@relpath_below cwd "a/c/Y.py" "a" ["a"] ["c"; "Y.py"]);
    [reflexivity | reflexivity | relative_parts cwd | relative_parts cwd
     | discriminate].
Qed.

(** ** From one file to the next *)

(** The lines [g'] has written beyond those of [g]. *)
Definition written_since (g g' : PUML_Generator) : list out_line :=
  skipn (List.length (dest g)) (dest g').

Lemma written_since_moved (ls : list out_line) (ns : list string)
      (g : PUML_Generator) :
  written_since g (moved ls ns g) = ls.
Proof.
  unfold written_since, moved; cbn [dest].
  rewrite skipn_app, skipn_all, Nat.sub_diag; reflexivity.
Qed.

Lemma start_file_ok (cwd src r : string) (target : list string)
      (g : PUML_Generator) :
  root_dir g = Some r ->
  target_namespaces cwd r src = Ok target ->
  let n := common_prefix_length (namespaces g) target in
  start_file cwd src g
  = Ok (moved (close_lines (depth g) (depth g - n)
               ++ open_lines n (skipn n target))
              target (set_sourcename (Some src) g)).
Proof.
  intros Hr Ht n; unfold start_file.
  replace (root_dir (set_sourcename (Some src) g)) with (root_dir g)
    by reflexivity.
  rewrite Hr, Ht; cbn [bind].
  rewrite (enter_namespaces_ok target (set_sourcename (Some src) g)).
  reflexivity.
Qed.

(** A generator with root directory [a], before any file. *)
Definition gen_root_a : PUML_Generator := new_PUML_Generator (Some "a") None.

(** The same generator once [a/b/X.py] is started, and once [a/c/Y.py] is
    started after it. *)
Definition gen_b_X : PUML_Generator :=
  mk_PUML_Generator
    [mk_out_line 0 ["namespace b {"]; mk_out_line 1 ["namespace X {"]]
    (Some "a") None ["b"; "X"] (Some "a/b/X.py").

Definition gen_c_Y : PUML_Generator :=
  mk_PUML_Generator
    [mk_out_line 0 ["namespace b {"]; mk_out_line 1 ["namespace X {"];
     mk_out_line 1 ["}"]; mk_out_line 0 ["}"];
     mk_out_line 0 ["namespace c {"]; mk_out_line 1 ["namespace Y {"]]
    (Some "a") None ["c"; "Y"] (Some "a/c/Y.py").

Lemma start_a_b_X (cwd : string) :
  start_file cwd "a/b/X.py" gen_root_a = Ok gen_b_X.
Proof.
  rewrite (@start_file_ok cwd "a/b/X.py" "a" ["b"; "X"] gen_root_a eq_refl
             (target_a_b_X cwd)).
  reflexivity.
Qed.

Lemma start_a_c_Y (cwd : string) :
  start_file cwd "a/c/Y.py" gen_b_X = Ok gen_c_Y.
Proof.
  rewrite (@start_file_ok cwd "a/c/Y.py" "a" ["c"; "Y"] gen_b_X eq_refl
             (target_a_c_Y cwd)).
  reflexivity.
Qed.

(** C3, as stated, fails: with root [a], going from [a/b/X] to [a/c/Y] does
    not close exactly one namespace and open exactly one. *)
Lemma C3_counterexample :
  ~ (forall g1 g2 : PUML_Generator,
        start_file "/" "a/b/X.py" gen_root_a = Ok g1 ->
        start_file "/" "a/c/Y.py" g1 = Ok g2 ->
        count_close (written_since g1 g2) = 1
        /\ count_open (written_since g1 g2) = 1).
Proof.
  intro H.
  destruct (H gen_b_X gen_c_Y (start_a_b_X "/") (start_a_c_Y "/")) as [Hc _].
  vm_compute in Hc. discriminate Hc.
Qed.

(** C3, amended.  Starting a file under a root directory never raises.  It
    closes as many namespaces as the stack is deeper than the longest common
    prefix of the stack and the target segments, innermost first, then opens
    the target segments beyond that prefix, in order; the shared prefix is
    left as it is and the stack ends equal to the target.  With root [a],
    whatever the working directory, the files [a/b/X.py] and [a/c/Y.py] have
    the targets [b; X] and [c; Y]: the root itself is no namespace and the
    module name is one, so going from the first to the second closes two
    namespaces ([X], then [b]) and opens two ([c], then [Y]). *)
Theorem C3_start_file_transition :
  (forall (cwd src r : string) (target : list string) (g : PUML_Generator),
      root_dir g = Some r ->
      target_namespaces cwd r src = Ok target ->
      exists g' : PUML_Generator,
        start_file cwd src g = Ok g'
        /\ let n := common_prefix_length (namespaces g) target in
           dest g' = dest g ++ close_lines (depth g) (depth g - n)
                            ++ open_lines n (skipn n target)
           /\ count_close (written_since g g') = depth g - n
           /\ count_open (written_since g g') = List.length target - n
           /\ namespaces g' = target
           /\ firstn n (namespaces g') = firstn n (namespaces g))
  /\ (forall cwd : string,
        start_file cwd "a/b/X.py" gen_root_a = Ok gen_b_X
        /\ namespaces gen_b_X = ["b"; "X"]
        /\ start_file cwd "a/c/Y.py" gen_b_X = Ok gen_c_Y
        /\ written_since gen_b_X gen_c_Y
           = [mk_out_line 1 ["}"]; mk_out_line 0 ["}"];
              mk_out_line 0 ["namespace c {"]; mk_out_line 1 ["namespace Y {"]]
        /\ count_close (written_since gen_b_X gen_c_Y) = 2
        /\ count_open (written_since gen_b_X gen_c_Y) = 2
        /\ namespaces gen_c_Y = ["c"; "Y"]).
Proof.
  split.
  - intros cwd src r target g Hr Ht.
    eexists; split; [apply (start_file_ok cwd src g Hr Ht)|].
    cbv zeta. set (n := common_prefix_length (namespaces g) target).
    replace (written_since g
               (moved (close_lines (depth g) (depth g - n)
                       ++ open_lines n (skipn n target))
                      target (set_sourcename (Some src) g)))
      with (close_lines (depth g) (depth g - n) ++ open_lines n (skipn n target))
      by (symmetry;
          apply (written_since_moved _ target (set_sourcename (Some src) g))).
    destruct (count_close_lines (depth g) (depth g - n)) as [Hcc Hco].
    destruct (count_open_lines n (skipn n target)) as [Hoo Hoc].
    repeat split.
    + rewrite count_close_app, Hcc, Hoc; lia.
    + rewrite count_open_app, Hco, Hoo, length_skipn; lia.
    + cbn [moved namespaces]. unfold n, common_prefix_length.
      symmetry; apply commonprefix_len_firstn.
  - intro cwd. repeat split; try reflexivity.
    + apply start_a_b_X.
    + apply start_a_c_Y.
Qed.

Lemma C3_start_file_transition_witness :
  root_dir gen_b_X = Some "a"
  /\ target_namespaces "/" "a" "a/c/Y.py" = Ok ["c"; "Y"]
  /\ exists g' : PUML_Generator,
       start_file "/" "a/c/Y.py" gen_b_X = Ok g'
       /\ count_close (written_since gen_b_X g') = 2
       /\ count_open (written_since gen_b_X g') = 2
       /\ namespaces g' = ["c"; "Y"].
Proof.
  split; [reflexivity|]. split; [apply target_a_c_Y|].
  destruct (proj1 C3_start_file_transition "/" "a/c/Y.py" "a" ["c"; "Y"]
              gen_b_X eq_refl (target_a_c_Y "/"))
    as [g' [Hs [_ [Hc [Ho [Hn _]]]]]].
  exists g'. repeat split; assumption.
Defined.

(** ** The visitor and its context *)

(** A context that keeps the records it is handed, in order. *)
#[export] Instance recorder : Context (list ClassInfo) :=
  fun ci log => log ++ [ci].

(** The visitor with its context replaced by an empty recorder. *)
Definition bare {C : Type} (v : TreeVisitor C) : TreeVisitor (list ClassInfo) :=
  mk_TreeVisitor [] (classinfo v) (constructor v).

(** The records reported while [n] is visited from the state of [v]. *)
Definition reported {C : Type} (n : node) (v : TreeVisitor C) : list ClassInfo :=
  context (visit n (bare v)).

Definition reported_each {C : Type} (l : list node) (v : TreeVisitor C)
  : list ClassInfo :=
  context (visit_each l (bare v)).

Section Simulation.
Context {C : Type} {print : Context C}.

(** [v] and the recording visitor [w] are in the same state, and the
    context of [v] is [c0] after the records [w] holds. *)
Definition agree (c0 : C) (v : TreeVisitor C)
           (w : TreeVisitor (list ClassInfo)) : Prop :=
  classinfo v = classinfo w
  /\ constructor v = constructor w
  /\ context v = fold_left (fun c ci => print_classinfo ci c) (context w) c0.

Lemma agree_set_classinfo c0 o v w :
  agree c0 v w -> agree c0 (set_classinfo o v) (set_classinfo o w).
Proof. intros (H1 & H2 & H3); repeat split; cbn; assumption. Qed.

Lemma agree_set_constructor c0 b v w :
  agree c0 v w -> agree c0 (set_constructor b v) (set_constructor b w).
Proof. intros (H1 & H2 & H3); repeat split; cbn; assumption. Qed.

Lemma agree_on_classinfo c0 f v w :
  agree c0 v w -> agree c0 (on_classinfo f v) (on_classinfo f w).
Proof.
  intro Hvw; pose proof Hvw as (H1 & H2 & H3).
  unfold on_classinfo; rewrite H1.
  destruct (classinfo w) eqn:E; [|exact Hvw].
  repeat split; cbn; try reflexivity; assumption.
Qed.

Lemma agree_done c0 v w : agree c0 v w -> agree c0 (done v) (done w).
Proof.
  intro Hvw; pose proof Hvw as (H1 & H2 & H3).
  unfold done; rewrite H1.
  destruct (classinfo w) as [ci|] eqn:E; [|exact Hvw].
  repeat split; cbn [classinfo constructor context]; try assumption.
  change (print_classinfo ci (context w)) with (context w ++ [ci]).
  rewrite fold_left_app, H3; reflexivity.
Qed.

Lemma agree_fold {A : Type} c0 (f : TreeVisitor C -> A -> TreeVisitor C)
      (f' : TreeVisitor (list ClassInfo) -> A -> TreeVisitor (list ClassInfo))
      (l : list A) :
  Forall (fun x => forall v w, agree c0 v w -> agree c0 (f v x) (f' w x)) l ->
  forall v w, agree c0 v w -> agree c0 (fold_left f l v) (fold_left f' l w).
Proof.
  induction 1 as [|x l Hx _ IH]; intros v w Hvw; cbn [fold_left];
    [assumption|].
  apply IH, Hx, Hvw.
Qed.

Lemma agree_visit_Assign c0 targets v w :
  agree c0 v w -> agree c0 (visit_Assign targets v) (visit_Assign targets w).
Proof.
  intro Hvw; pose proof Hvw as (H1 & H2 & H3); unfold visit_Assign.
  rewrite H1, H2. destruct (constructor w).
  - apply agree_fold; [|assumption]. apply Forall_forall; intros t _ v' w' H'.
    unfold visit_member_target.
    destruct t as [?|[id| | |] attr|?|?]; try assumption.
    destruct (String.eqb id "self"); [apply agree_on_classinfo|]; assumption.
  - destruct (classinfo w); [|assumption].
    apply agree_fold; [|assumption]. apply Forall_forall; intros t _ v' w' H'.
    unfold visit_classvar_target.
    destruct t; try assumption. apply agree_on_classinfo; assumption.
Qed.

Lemma agree_visit c0 (n : node) :
  forall v w, agree c0 v w -> agree c0 (visit n v) (visit n w).
Proof.
  induction n as [name bs body IH|name a body IH|targets|children IH]
    using node_forall_ind; intros v w Hvw.
  - rewrite !visit_ClassDef. pose proof Hvw as (H1 & _).
    rewrite H1. apply agree_set_classinfo, agree_done.
    apply (agree_fold (fun v c => visit c v) (fun w c => visit c w) IH).
    apply agree_set_classinfo; exact Hvw.
  - pose proof Hvw as (H1 & H2 & H3).
    destruct (classinfo w) as [ci|] eqn:E.
    + assert (Hv : classinfo v <> None) by congruence.
      assert (Hw : classinfo w <> None) by congruence.
      destruct (String.eqb_spec name "__init__") as [->|Hn].
      * rewrite !visit_FunctionDef_init by assumption.
        apply agree_on_classinfo, agree_set_constructor.
        apply (agree_fold (fun v c => visit c v) (fun w c => visit c w) IH).
        apply agree_set_constructor; assumption.
      * rewrite !visit_FunctionDef_method by assumption.
        apply agree_on_classinfo; assumption.
    + rewrite !visit_FunctionDef_outside by congruence. assumption.
  - rewrite !visit_Assign_eq. apply agree_visit_Assign; assumption.
  - rewrite !visit_Other.
    apply (agree_fold (fun v c => visit c v) (fun w c => visit c w) IH).
    assumption.
Qed.

Lemma agree_bare (v : TreeVisitor C) : agree (context v) v (bare v).
Proof. repeat split. Qed.

(** Visiting [n] hands the context the records [reported n v], in order,
    and moves the visitor's own state as it moves the recording
    visitor's. *)
Lemma visit_bare (n : node) (v : TreeVisitor C) :
  classinfo (visit n v) = classinfo (visit n (bare v))
  /\ constructor (visit n v) = constructor (visit n (bare v))
  /\ context (visit n v)
     = fold_left (fun c ci => print_classinfo ci c) (reported n v) (context v).
Proof. exact (agree_visit n (agree_bare v)). Qed.

Lemma visit_each_bare (l : list node) (v : TreeVisitor C) :
  classinfo (visit_each l v) = classinfo (visit_each l (bare v))
  /\ constructor (visit_each l v) = constructor (visit_each l (bare v))
  /\ context (visit_each l v)
     = fold_left (fun c ci => print_classinfo ci c)
                 (reported_each l v) (context v).
Proof.
  refine (agree_fold (c0 := context v) (fun v c => visit c v)
                     (fun w c => visit c w) _ (agree_bare v)).
  apply Forall_forall; intros c _ v' w'; apply agree_visit.
Qed.

End Simulation.

(** ** The generator as the visitor's context *)

Lemma report_all (log : list ClassInfo) (g : PUML_Generator) :
  fold_left (fun c ci => print_classinfo ci c) log g
  = emit (flat_map (class_lines (depth g)) log) g.
Proof.
  apply (fold_left_emit (fun c ci => print_classinfo ci c)
                        (fun d ci => class_lines d ci)).
  intros g0 ci; apply print_classinfo_emit.
Qed.

(** Visiting a tree writes the lines of the reported classes, in the order
    they are reported, and touches nothing else of the generator. *)
Lemma visit_emit (n : node) (v : TreeVisitor PUML_Generator) :
  context (visit n v)
  = emit (flat_map (class_lines (depth (context v))) (reported n v))
         (context v).
Proof.
  destruct (visit_bare n v) as (_ & _ & H); rewrite H; apply report_all.
Qed.

Lemma plain_app (l1 l2 : list out_line) :
  plain l1 -> plain l2 -> plain (l1 ++ l2).
Proof. intros H1 H2; apply Forall_app; split; assumption. Qed.

Lemma plain_map {A : Type} (f : A -> out_line) (l : list A) :
  (forall x, is_open (f x) = false /\ is_close (f x) = false) ->
  plain (map f l).
Proof.
  intro H; apply Forall_forall; intros y Hy.
  apply in_map_iff in Hy; destruct Hy as [x [<- _]]; apply H.
Qed.

Lemma plain_class_lines (d : nat) (ci : ClassInfo) : plain (class_lines d ci).
Proof.
  unfold class_lines, class_block, inheritance_lines.
  apply plain_app; [apply plain_map; intro; split; reflexivity|].
  constructor; [split; reflexivity|].
  repeat apply plain_app; try (apply plain_map; intro; split; reflexivity).
  constructor; [split; reflexivity|constructor].
Qed.

Lemma plain_flat_map {A : Type} (f : A -> list out_line) (l : list A) :
  (forall x, plain (f x)) -> plain (flat_map f l).
Proof.
  intro H; induction l as [|x l IH]; cbn [flat_map];
    [constructor | apply plain_app; [apply H | exact IH]].
Qed.

(** A line written from a text followed by a newline is no marker. *)
Lemma plain_text (d : nat) (p : string) : plain [mk_out_line d [p +++ Py.LF]].
Proof.
  constructor; [|constructor]. unfold is_open, is_close; cbn [ol_args]. split.
  - unfold Py.LF; rewrite last_char_app; cbn [last_char].
    apply andb_false_r.
  - apply String.eqb_neq; destruct p as [|c [|c' p]]; cbn; discriminate.
Qed.

(** The markers written so far are well bracketed and leave exactly the
    namespaces of the stack open. *)
Definition balanced (g : PUML_Generator) : Prop :=
  nesting (dest g) 0 = Some (depth g).

Lemma balanced_emit (ls : list out_line) (g : PUML_Generator) :
  plain ls -> balanced g -> balanced (emit ls g).
Proof.
  unfold balanced; intros Hp Hb; cbn [emit dest].
  rewrite nesting_app, Hb; apply nesting_plain, Hp.
Qed.

Lemma balanced_indent_text (p : string) (g : PUML_Generator) :
  balanced g -> balanced (indent [p +++ Py.LF] g).
Proof. rewrite indent_emit; apply balanced_emit, plain_text. Qed.

Lemma balanced_header (r : option string) (cfg : option Config) :
  balanced (header (new_PUML_Generator r cfg)).
Proof.
  unfold header.
  assert (H : balanced (indent ["@startuml"] (new_PUML_Generator r cfg)))
    by reflexivity.
  replace (config (indent ["@startuml"] (new_PUML_Generator r cfg)))
    with cfg by reflexivity.
  destruct cfg as [[[p|] e]|]; cbn [prolog]; try exact H.
  destruct (Py.truthy p); [apply balanced_indent_text|]; exact H.
Qed.

Lemma balanced_visit (n : node) (v : TreeVisitor PUML_Generator) :
  balanced (context v) ->
  balanced (context (visit n v))
  /\ namespaces (context (visit n v)) = namespaces (context v)
  /\ root (context (visit n v)) = root (context v)
  /\ config (context (visit n v)) = config (context v).
Proof.
  intro H; rewrite visit_emit; repeat split.
  apply balanced_emit; [|exact H].
  apply plain_flat_map; intro; apply plain_class_lines.
Qed.

Lemma balanced_start_file (cwd src : string) (g g' : PUML_Generator) :
  start_file cwd src g = Ok g' -> balanced g -> balanced g'.
Proof.
  intros Hs Hb. destruct (root_dir g) as [r|] eqn:Hr.
  - destruct (target_namespaces cwd r src) as [target|e] eqn:Ht.
    + rewrite (start_file_ok cwd src g Hr Ht) in Hs; injection Hs as <-.
      set (n := common_prefix_length (namespaces g) target).
      destruct (commonprefix_len_le (namespaces g) target) as [H1 H2].
      fold (common_prefix_length (namespaces g) target) in H1, H2.
      fold n in H1, H2; fold (depth g) in H1.
      unfold balanced in *; cbn [moved dest set_sourcename].
      pose proof (nesting_close_lines (depth g) (depth g - n) n) as Hc.
      replace (depth g - n + n) with (depth g) in Hc by lia.
      rewrite nesting_app, Hb, nesting_app, Hc, nesting_open_lines.
      rewrite length_skipn. unfold depth at 1; cbn [moved namespaces].
      f_equal; lia.
    + unfold start_file in Hs.
      replace (root_dir (set_sourcename (Some src) g)) with (root_dir g) in Hs
        by reflexivity.
      rewrite Hr, Ht in Hs; discriminate Hs.
  - unfold start_file in Hs.
    replace (root_dir (set_sourcename (Some src) g)) with (root_dir g) in Hs
      by reflexivity.
    rewrite Hr in Hs; injection Hs as <-. exact Hb.
Qed.

(** [footer] never raises: the loop closes every namespace still open in one
    round. *)
Lemma close_namespaces_ok (g : PUML_Generator) :
  close_namespaces 1 g = Ok (moved (close_lines (depth g) (depth g)) [] g).
Proof.
  unfold close_namespaces.
  destruct (namespaces g) as [|x ns] eqn:E.
  - unfold depth; rewrite E; cbn [List.length close_lines].
    rewrite <- E; rewrite moved_id; reflexivity.
  - rewrite pop_ns_ok by lia. cbn [bind moved namespaces].
    rewrite Nat.sub_diag; reflexivity.
Qed.

Lemma footer_ok (g : PUML_Generator) :
  exists ls : list out_line,
    plain ls
    /\ footer g = Ok (moved (close_lines (depth g) (depth g) ++ ls) [] g).
Proof.
  unfold footer; rewrite close_namespaces_ok; cbn [bind].
  set (g1 := moved (close_lines (depth g) (depth g)) [] g).
  replace (config g1) with (config g) by reflexivity.
  assert (Hend : forall p, plain [mk_out_line 0 [p +++ Py.LF];
                                  mk_out_line 0 ["@enduml"]]).
  { intro p; apply (plain_app (plain_text 0 p)).
    constructor; [split; reflexivity|constructor]. }
  assert (Hno : plain [mk_out_line 0 ["@enduml"]])
    by (constructor; [split; reflexivity|constructor]).
  destruct (config g) as [[p [e|]]|]; cbn [epilog];
    try (exists [mk_out_line 0 ["@enduml"]]; split; [exact Hno|];
         unfold g1, moved, indent, depth; cbn; rewrite <- app_assoc;
         reflexivity).
  destruct (Py.truthy e).
  - exists [mk_out_line 0 [e +++ Py.LF]; mk_out_line 0 ["@enduml"]].
    split; [apply Hend|].
    unfold g1, moved, indent, depth; cbn; rewrite <- !app_assoc; reflexivity.
  - exists [mk_out_line 0 ["@enduml"]]; split; [exact Hno|].
    unfold g1, moved, indent, depth; cbn; rewrite <- app_assoc; reflexivity.
Qed.

(** ** A whole run *)

Lemma target_namespaces_total (cwd r src : string) :
  Py.truthy src = true ->
  exists target, target_namespaces cwd r src = Ok target.
Proof.
  intro H; unfold target_namespaces, OsPath.relpath; rewrite H; cbn [negb].
  destruct (repeat OsPath.pardir _ ++ skipn _ _); cbn [bind]; eexists;
    reflexivity.
Qed.

Lemma start_file_total (cwd src : string) (g : PUML_Generator) :
  Py.truthy src = true -> exists g', start_file cwd src g = Ok g'.
Proof.
  intro H. destruct (root_dir g) as [r|] eqn:Hr.
  - destruct (target_namespaces_total cwd r src H) as [target Ht].
    eexists; apply (start_file_ok cwd src g Hr Ht).
  - unfold start_file.
    replace (root_dir (set_sourcename (Some src) g)) with (root_dir g)
      by reflexivity.
    rewrite Hr; eexists; reflexivity.
Qed.

Section Run.
Variable cwd : string.
Variable read_file : string -> result string.
Variable ast_parse : string -> result node.

(** A source file the run can take in: a non-empty path that can be read
    and parsed. *)
Definition parsable (srcfile : string) : Prop :=
  Py.truthy srcfile = true
  /\ exists src tree, read_file srcfile = Ok src /\ ast_parse src = Ok tree.

Lemma process_file_balanced (v v' : TreeVisitor PUML_Generator)
      (srcfile : string) :
  process_file cwd read_file ast_parse v srcfile = Ok v' ->
  balanced (context v) -> balanced (context v').
Proof.
  unfold process_file; intros H Hb.
  destruct (start_file cwd srcfile (context v)) as [g|e] eqn:Hs;
    [|discriminate H].
  cbn [bind] in H.
  destruct (read_file srcfile) as [src|e]; [|discriminate H].
  cbn [bind] in H.
  destruct (ast_parse src) as [tree|e]; [|discriminate H].
  cbn [bind] in H. injection H as <-. cbn [set_context context].
  apply (balanced_start_file _ _ Hs) in Hb.
  destruct (balanced_visit tree (set_context g v) Hb) as [H _].
  exact H.
Qed.

Lemma process_files_balanced (py_file : list string) :
  forall v v' : TreeVisitor PUML_Generator,
    process_files cwd read_file ast_parse v py_file = Ok v' ->
    balanced (context v) -> balanced (context v').
Proof.
  induction py_file as [|srcfile rest IH]; intros v v' H Hb;
    cbn [process_files] in H.
  - injection H as <-; exact Hb.
  - destruct (process_file cwd read_file ast_parse v srcfile) as [v1|e] eqn:E;
      [|discriminate H].
    cbn [bind] in H.
    apply (IH v1 v' H), (process_file_balanced _ _ E), Hb.
  Qed.

Lemma process_files_total (py_file : list string) :
  Forall parsable py_file ->
  forall v : TreeVisitor PUML_Generator,
  exists v', process_files cwd read_file ast_parse v py_file = Ok v'.
Proof.
  induction 1 as [|srcfile rest (Ht & src & tree & Hr & Hp) _ IH]; intro v;
    cbn [process_files].
  - eexists; reflexivity.
  - unfold process_file.
    destruct (start_file_total cwd srcfile (context v) Ht) as [g Hg].
    rewrite Hg; cbn [bind]. rewrite Hr; cbn [bind]. rewrite Hp; cbn [bind].
    apply IH.
Qed.

Lemma run_balanced (root_arg : option string) (cfg : Config)
      (py_file : list string) (g : PUML_Generator) :
  run cwd read_file ast_parse root_arg cfg py_file = Ok g ->
  nesting (dest g) 0 = Some 0 /\ namespaces g = [].
Proof.
  unfold run; intro H.
  set (v0 := set_context _ _) in H.
  assert (Hb0 : balanced (context v0)) by apply balanced_header.
  destruct (process_files cwd read_file ast_parse v0 py_file) as [v1|e] eqn:E;
    [|discriminate H].
  cbn [bind] in H.
  pose proof (process_files_balanced _ _ E Hb0) as Hb1.
  destruct (footer_ok (context v1)) as (ls & Hls & Hf).
  rewrite Hf in H; injection H as <-. split; [|reflexivity].
  unfold balanced in Hb1; cbn [moved dest].
  rewrite nesting_app, Hb1, nesting_app.
  pose proof (nesting_close_lines (depth (context v1)) (depth (context v1)) 0)
    as Hc.
  rewrite Nat.add_0_r in Hc; rewrite Hc. apply nesting_plain, Hls.
Qed.

Lemma run_total (root_arg : option string) (cfg : Config)
      (py_file : list string) :
  Forall parsable py_file ->
  exists g, run cwd read_file ast_parse root_arg cfg py_file = Ok g.
Proof.
  intro H; unfold run.
  destruct (process_files_total H
              (set_context
                 (header (context (new_TreeVisitor
                                     (new_PUML_Generator root_arg (Some cfg)))))
                 (new_TreeVisitor (new_PUML_Generator root_arg (Some cfg)))))
    as [v1 Hv1].
  rewrite Hv1; cbn [bind].
  destruct (footer_ok (context v1)) as (ls & _ & Hf).
  rewrite Hf; eexists; reflexivity.
Qed.

End Run.

(** C4.  Whatever the files, the root directory and the configuration: when
    the run gets to write the footer, the output holds as many
    namespace-open markers as namespace-close markers, the markers are well
    bracketed (each close marker answers an open marker before it, and none
    stays open), and the namespace stack is empty.  The run does get there
    whenever each file has a non-empty path and can be read and parsed. *)
Theorem C4_namespaces_balanced
        (cwd : string) (read_file : string -> result string)
        (ast_parse : string -> result node)
        (root_arg : option string) (cfg : Config) (py_file : list string) :
  (forall g : PUML_Generator,
      run cwd read_file ast_parse root_arg cfg py_file = Ok g ->
      count_open (dest g) = count_close (dest g)
      /\ nesting (dest g) 0 = Some 0
      /\ namespaces g = [])
  /\ (Forall (parsable read_file ast_parse) py_file ->
      exists g : PUML_Generator,
        run cwd read_file ast_parse root_arg cfg py_file = Ok g).
Proof.
  split.
  - intros g H; destruct (run_balanced _ _ _ _ _ _ H) as [Hn Hs].
    repeat split; try assumption.
    apply nesting_counts in Hn; lia.
  - apply run_total.
Qed.

Lemma C4_namespaces_balanced_witness :
  exists g : PUML_Generator,
    run "/" (fun _ => Ok "") (fun _ => Ok (Other [])) (Some "a")
        (mk_Config None None) ["a/b/X.py"; "a/c/Y.py"] = Ok g
    /\ count_open (dest g) = count_close (dest g)
    /\ nesting (dest g) 0 = Some 0
    /\ namespaces g = [].
Proof.
  destruct (C4_namespaces_balanced "/" (fun _ => Ok "") (fun _ => Ok (Other []))
              (Some "a") (mk_Config None None) ["a/b/X.py"; "a/c/Y.py"])
    as [Hbal Htot].
  destruct Htot as [g Hg].
  - repeat constructor; exists "", (Other []); split; reflexivity.
  - exists g; split; [exact Hg | exact (Hbal g Hg)].
Defined.

(** ** The visitor's own state *)

Definition is_init (n : node) : bool :=
match n with
| FunctionDef name _ _ => String.eqb name "__init__"
| _ => false
end.

Section VisitorState.
Context {C : Type} {print : Context C}.

(** The recursive calls of [visit]: [calls n v c vc] when visiting [n] in
    state [v] comes to call [visit] on the child [c] in state [vc].  A class
    definition visits its body under a new record, the constructor of a class
    visits its body in constructor mode, any node without a handler visits
    its children; nothing else is visited. *)
Inductive calls : node -> TreeVisitor C -> node -> TreeVisitor C -> Prop :=
| calls_ClassDef name bs pre c post v :
    calls (ClassDef name bs (pre ++ c :: post)) v c
          (visit_each pre (set_classinfo (Some (new_ClassInfo name bs)) v))
| calls_init a pre c post v :
    classinfo v <> None ->
    calls (FunctionDef "__init__" a (pre ++ c :: post)) v c
          (visit_each pre (set_constructor true v))
| calls_Other pre c post v :
    calls (Other (pre ++ c :: post)) v c (visit_each pre v).

(** Chains of calls; the flag tells whether the chain goes through the body
    of a function definition named [__init__]. *)
Inductive within : bool -> node -> TreeVisitor C -> node -> TreeVisitor C
                   -> Prop :=
| within_here n v : within false n v n v
| within_call b n v d vd c vc :
    within b n v d vd -> calls d vd c vc ->
    within (b || is_init d) n v c vc.

Lemma constructor_on_classinfo f (v : TreeVisitor C) :
  constructor (on_classinfo f v) = constructor v.
Proof. unfold on_classinfo; destruct (classinfo v); reflexivity. Qed.

Lemma context_on_classinfo f (v : TreeVisitor C) :
  context (on_classinfo f v) = context v.
Proof. unfold on_classinfo; destruct (classinfo v); reflexivity. Qed.

Lemma constructor_done (v : TreeVisitor C) :
  constructor (done v) = constructor v.
Proof. unfold done; destruct (classinfo v); reflexivity. Qed.

Lemma classinfo_done (v : TreeVisitor C) : classinfo (done v) = classinfo v.
Proof. unfold done; destruct (classinfo v) eqn:E; cbn; congruence. Qed.

Lemma fold_left_invariant {A S : Type} (P : S -> Prop) (f : S -> A -> S)
      (l : list A) :
  Forall (fun x => forall s, P s -> P (f s x)) l ->
  forall s, P s -> P (fold_left f l s).
Proof.
  induction 1 as [|x l Hx _ IH]; intros s Hs; cbn [fold_left];
    [assumption | apply IH, Hx, Hs].
Qed.

Lemma constructor_visit_Assign targets (v : TreeVisitor C) :
  constructor (visit_Assign targets v) = constructor v.
Proof.
  unfold visit_Assign. destruct (constructor v) eqn:E.
  - apply (fold_left_invariant (fun s => constructor s = true));
      [|assumption].
    apply Forall_forall; intros t _ s Hs; unfold visit_member_target.
    destruct t as [?|[id| | |] attr|?|?]; try assumption.
    destruct (String.eqb id "self"); [rewrite constructor_on_classinfo|];
      assumption.
  - destruct (classinfo v); [|assumption].
    apply (fold_left_invariant (fun s => constructor s = false));
      [|assumption].
    apply Forall_forall; intros t _ s Hs; unfold visit_classvar_target.
    destruct t; try assumption. rewrite constructor_on_classinfo; assumption.
Qed.

Lemma context_visit_Assign targets (v : TreeVisitor C) :
  context (visit_Assign targets v) = context v.
Proof.
  unfold visit_Assign.
  destruct (constructor v); [|destruct (classinfo v); [|reflexivity]];
    apply (fold_left_invariant (fun s => context s = context v));
    try reflexivity; apply Forall_forall; intros t _ s Hs.
  - unfold visit_member_target.
    destruct t as [?|[id| | |] attr|?|?]; try assumption.
    destruct (String.eqb id "self"); [rewrite context_on_classinfo|];
      assumption.
  - unfold visit_classvar_target.
    destruct t; try assumption. rewrite context_on_classinfo; assumption.
Qed.

(** With constructor mode off, every visit returns with it off. *)
Lemma visit_constructor_off (n : node) :
  forall v : TreeVisitor C,
    constructor v = false -> constructor (visit n v) = false.
Proof.
  induction n as [name bs body IH|name a body IH|targets|children IH]
    using node_forall_ind; intros v Hv.
  - rewrite visit_ClassDef; cbn [set_classinfo constructor].
    rewrite constructor_done.
    apply (fold_left_invariant (fun s => constructor s = false)
                               (fun s c => visit c s) IH).
    exact Hv.
  - destruct (classinfo v) eqn:E.
    + destruct (String.eqb_spec name "__init__") as [->|Hn].
      * rewrite visit_FunctionDef_init by congruence.
        rewrite constructor_on_classinfo; reflexivity.
      * rewrite visit_FunctionDef_method by congruence.
        rewrite constructor_on_classinfo; exact Hv.
    + rewrite visit_FunctionDef_outside; assumption.
  - rewrite visit_Assign_eq, constructor_visit_Assign; exact Hv.
  - rewrite visit_Other.
    apply (fold_left_invariant (fun s => constructor s = false)
                               (fun s c => visit c s) IH).
    exact Hv.
Qed.


(** A function definition that is no constructor of a class makes no
    call. *)
Lemma calls_FunctionDef name a body (v : TreeVisitor C) c vc :
  calls (FunctionDef name a body) v c vc ->
  name = "__init__" /\ classinfo v <> None.
Proof. inversion 1; subst; split; [reflexivity | assumption]. Qed.


End VisitorState.

(** ** Function definitions *)

(** A visitor as the main program creates it, reporting to a recorder. *)
Definition fresh_visitor : TreeVisitor (list ClassInfo) := new_TreeVisitor [].

(** The parameter list [(self)]. *)
Definition self_only : arguments := mk_arguments ["self"] None None.

(** A visitor inside a class [Dog], in constructor mode or not. *)
Definition inside_Dog (mode : bool) : TreeVisitor (list ClassInfo) :=
mk_TreeVisitor [] (Some (new_ClassInfo "Dog" [])) mode.

(** A method [bark] whose body holds a class definition and assignments. *)
Definition bark_with_body : node :=
FunctionDef "bark" self_only
  [ClassDef "Hidden" [] [];
   Assign [Name "x"];
   Assign [Attribute (Name "self") "y"]].

(** An [async def] at module level holding a class, and a class with an
    [async def] method that assigns a plain name. *)
Definition async_module : node :=
Other [AsyncFunctionDef "serve" (mk_arguments [] None None)
         [ClassDef "Handler" [] []]].

Definition async_method_class : node :=
ClassDef "Worker" []
  [AsyncFunctionDef "run" self_only [Assign [Name "x"]]].

(** C10, as stated, fails: the body of a function defined with [async def]
    is traversed.  At module level the class inside it is reported, and
    inside a class the plain name its body assigns becomes a class
    variable. *)
Lemma C10_counterexample :
  ~ (reported async_module fresh_visitor = [])
  /\ ~ (forall ci : ClassInfo,
           In ci (reported async_method_class fresh_visitor) ->
           classvars ci = []).
Proof.
  split.
  - discriminate.
  - intro H. specialize (H (mk_ClassInfo "Worker" [] ["x"] [] [])
                           (or_introl eq_refl)).
    discriminate H.
Qed.

(** C10, amended.  A function definition written with [def] (a
    [FunctionDef] node) met outside any class, or met inside a class under a
    name other than [__init__], has its body left alone: the visitor makes
    no call on any node of the body, the result is the same as for an empty
    body, nothing is reported to the context (no record, no output), the
    mode is as before, and the open record, if there is one, only gains the
    definition as a method (its class variables and instance members are as
    before).  A function definition written with [async def] (an
    [AsyncFunctionDef] node) has no handler: its body is traversed statement
    by statement in the state the visitor is in, like the body of any
    compound statement, and the definition is not registered as a method. *)
Theorem C10_function_bodies_not_traversed {C : Type} {print : Context C} :
  (forall (name : string) (a : arguments) (body : list node)
          (v : TreeVisitor C),
      classinfo v = None \/ name <> "__init__" ->
      (forall c vc, ~ calls (FunctionDef name a body) v c vc)
      /\ visit (FunctionDef name a body) v = visit (FunctionDef name a []) v
      /\ context (visit (FunctionDef name a body) v) = context v
      /\ constructor (visit (FunctionDef name a body) v) = constructor v
      /\ (classinfo v = None -> visit (FunctionDef name a body) v = v)
      /\ (forall ci, classinfo v = Some ci ->
            classinfo (visit (FunctionDef name a body) v)
            = Some (mk_ClassInfo (classname ci) (bases ci) (classvars ci)
                                 (members ci)
                                 (methods ci ++ [mk_method name a]))))
  /\ (forall (name : string) (a : arguments) (body : list node)
             (v : TreeVisitor C),
         visit (AsyncFunctionDef name a body) v = visit_each body v
         /\ (forall pre c post, body = pre ++ c :: post ->
               calls (AsyncFunctionDef name a body) v c (visit_each pre v))).
Proof.
  split.
  - intros name a body v H.
    assert (Hcalls : forall c vc, ~ calls (FunctionDef name a body) v c vc).
    { intros c vc Hc; apply calls_FunctionDef in Hc; destruct Hc as [Hn Hv].
      destruct H; contradiction. }
    split; [exact Hcalls|].
    destruct (classinfo v) as [ci|] eqn:E.
    + destruct H as [H|Hn]; [discriminate H|].
      rewrite !visit_FunctionDef_method by congruence.
      rewrite context_on_classinfo, constructor_on_classinfo.
      repeat split; try reflexivity; [discriminate|].
      intros ci' [= <-]. unfold on_classinfo; rewrite E; reflexivity.
    + rewrite !visit_FunctionDef_outside by assumption.
      repeat split; try reflexivity. discriminate.
  - intros name a body v; unfold AsyncFunctionDef.
    split; [apply visit_Other|].
    intros pre c post ->; apply calls_Other.
Qed.

Lemma C10_function_bodies_not_traversed_witness :
  visit bark_with_body (inside_Dog false)
  = visit (FunctionDef "bark" self_only []) (inside_Dog false)
  /\ context (visit bark_with_body (inside_Dog false)) = []
  /\ visit bark_with_body fresh_visitor = fresh_visitor.
Proof.
  assert (Hin : classinfo (inside_Dog false) = None \/ "bark" <> "__init__")
    by (right; discriminate).
  assert (Hout : classinfo fresh_visitor = None \/ "bark" <> "__init__")
    by (left; reflexivity).
  destruct (proj1 (@C10_function_bodies_not_traversed _ recorder)
              "bark" self_only
              [ClassDef "Hidden" [] []; Assign [Name "x"];
               Assign [Attribute (Name "self") "y"]]
              (inside_Dog false) Hin) as (_ & H1 & H2 & _).
  destruct (proj1 (@C10_function_bodies_not_traversed _ recorder)
              "bark" self_only
              [ClassDef "Hidden" [] []; Assign [Name "x"];
               Assign [Attribute (Name "self") "y"]]
              fresh_visitor Hout) as (_ & _ & _ & _ & H3 & _).
  split; [exact H1|]. split; [exact H2|]. exact (H3 eq_refl).
Defined.

(** ** Constructor mode *)

(** A class whose constructor holds a function definition that is itself
    named [__init__] and assigns [self.x], followed by an assignment to
    [self.y] of the constructor's own. *)
Definition nested_init_class : node :=
ClassDef "C" []
  [FunctionDef "__init__" self_only
     [FunctionDef "__init__" self_only
        [Assign [Attribute (Name "self") "x"]];
      Assign [Attribute (Name "self") "y"]]].

Lemma nested_init_class_reported :
  reported nested_init_class fresh_visitor
  = [mk_ClassInfo "C" [] [] ["x"]
       [mk_method "__init__" self_only; mk_method "__init__" self_only]].
Proof. reflexivity. Qed.

(** ** Instance members *)

(** The attribute a target registers in constructor mode. *)
Definition self_attr (target : expr) : list string :=
match target with
| Attribute (Name id) attr => if String.eqb id "self" then [attr] else []
| _ => []
end.

(** The self-attributes assigned by a statement of a constructor body, in the
    order the visitor meets them.  Assignments inside a nested class go to the
    record of that class, and the body of a nested function definition of
    another name is not visited. *)
Fixpoint self_attrs (n : node) : list string :=
match n with
| Assign targets => flat_map self_attr targets
| Other children => flat_map self_attrs children
| ClassDef _ _ _ => []
| FunctionDef _ _ _ => []
end.

(** No function definition named [__init__] is visited below [n] when [n] is
    visited inside a class. *)
Fixpoint stays_on (n : node) : bool :=
match n with
| Assign _ => true
| Other children => forallb stays_on children
| ClassDef _ _ body => forallb stays_on body
| FunctionDef name _ _ => negb (String.eqb name "__init__")
end.

(** The names of [names] that are not in [seen], each once, in the order of
    their first occurrence. *)
Fixpoint first_seen (seen names : list string) : list string :=
match names with
| [] => []
| x :: names' =>
    if mem x seen then first_seen seen names'
    else x :: first_seen (seen ++ [x]) names'
end.

(** [members] after [add_member]. *)
Definition register (m : list string) (x : string) : list string :=
if mem x m then m else m ++ [x].

Lemma mem_In (x : string) (l : list string) : mem x l = true <-> In x l.
Proof.
  unfold mem; rewrite existsb_exists; split.
  - intros [y [Hy He]]; apply String.eqb_eq in He; subst; exact Hy.
  - intro H; exists x; split; [exact H | apply String.eqb_refl].
Qed.

Lemma mem_false (x : string) (l : list string) : mem x l = false <-> ~ In x l.
Proof.
  rewrite <- mem_In; destruct (mem x l); split; intro H; try reflexivity;
    try discriminate; try (intro; discriminate); exfalso; apply H; reflexivity.
Qed.

Lemma members_add_member (x : string) (ci : ClassInfo) :
  members (add_member x ci) = register (members ci) x.
Proof. unfold add_member, register; destruct (mem x (members ci)); reflexivity. Qed.

Lemma NoDup_register (m : list string) (x : string) :
  NoDup m -> NoDup (register m x).
Proof.
  intro H; unfold register; destruct (mem x m) eqn:E; [exact H|].
  apply mem_false in E. apply NoDup_app; [exact H | repeat constructor; intros [] |].
  intros y Hy [<-|[]]; contradiction.
Qed.

Lemma register_all (names m : list string) :
  fold_left register names m = m ++ first_seen m names.
Proof.
  revert m; induction names as [|x names IH]; intro m;
    cbn [fold_left first_seen].
  - symmetry; apply app_nil_r.
  - unfold register at 2; destruct (mem x m); [apply IH|].
    rewrite IH, <- app_assoc; reflexivity.
Qed.

Lemma first_seen_app (seen l1 l2 : list string) :
  first_seen seen (l1 ++ l2)
  = first_seen seen l1 ++ first_seen (seen ++ first_seen seen l1) l2.
Proof.
  revert seen; induction l1 as [|x l1 IH]; intro seen; cbn [app first_seen].
  - rewrite app_nil_r; reflexivity.
  - destruct (mem x seen); [apply IH|].
    cbn [app]; rewrite IH, <- app_assoc; reflexivity.
Qed.

Lemma first_seen_fresh (seen names : list string) (x : string) :
  In x (first_seen seen names) -> ~ In x seen.
Proof.
  revert seen; induction names as [|y names IH]; intro seen;
    cbn [first_seen]; [intros []|].
  destruct (mem y seen) eqn:E; [apply IH|].
  intros [<-|H]; [apply mem_false, E|].
  intro Hs; apply (IH _ H), in_or_app; left; exact Hs.
Qed.

Lemma first_seen_skip (seen names : list string) (x : string) :
  ~ In x names -> ~ In x (first_seen seen names).
Proof.
  revert seen; induction names as [|y names IH]; intros seen Hx;
    cbn [first_seen]; [intros []|].
  destruct (mem y seen).
  - apply IH; intro; apply Hx; right; assumption.
  - intros [<-|H]; [apply Hx; left; reflexivity|].
    revert H; apply IH; intro; apply Hx; right; assumption.
Qed.

(** The place of a name first assigned after [pre]: right behind the names
    seen up to there, and nowhere further on. *)
Lemma first_seen_position (seen pre post : list string) (x : string) :
  ~ In x pre -> ~ In x seen ->
  exists rest,
    first_seen seen (pre ++ x :: post) = first_seen seen pre ++ x :: rest
    /\ ~ In x rest.
Proof.
  intros Hpre Hseen. rewrite first_seen_app; cbn [first_seen].
  assert (E : mem x (seen ++ first_seen seen pre) = false).
  { apply mem_false; intro H; apply in_app_or in H; destruct H as [H|H];
      [contradiction | exact (first_seen_skip seen pre x Hpre H)]. }
  rewrite E. eexists; split; [reflexivity|].
  intro H; apply first_seen_fresh in H; apply H.
  apply in_or_app; right; left; reflexivity.
Qed.

Section Members.
Context {C : Type} {print : Context C}.

Lemma visit_member_targets (targets : list expr) (v : TreeVisitor C)
      (ci : ClassInfo) :
  classinfo v = Some ci ->
  exists ci',
    classinfo (fold_left (fun v t => visit_member_target t v) targets v)
    = Some ci'
    /\ members ci' = fold_left register (flat_map self_attr targets) (members ci).
Proof.
  revert v ci; induction targets as [|t targets IH]; intros v ci Hci;
    cbn [fold_left flat_map].
  - exists ci; split; [exact Hci | reflexivity].
  - rewrite fold_left_app.
    assert (H : exists ci1,
               classinfo (visit_member_target t v) = Some ci1
               /\ members ci1 = fold_left register (self_attr t) (members ci)).
    { unfold visit_member_target, self_attr.
      destruct t as [?|[id| | |] attr|?|?];
        try (exists ci; split; [exact Hci | reflexivity]).
      destruct (String.eqb id "self");
        [|exists ci; split; [exact Hci | reflexivity]].
      unfold on_classinfo; rewrite Hci.
      exists (add_member attr ci); split;
        [reflexivity | apply members_add_member]. }
    destruct H as (ci1 & H1 & H2).
    destruct (IH _ _ H1) as (ci' & H3 & H4).
    exists ci'; split; [exact H3 | rewrite H4, H2; reflexivity].
Qed.

(** In constructor mode inside a class, a statement below which no
    constructor is visited leaves the mode on and registers its
    self-attributes, in order, on the open record. *)
Lemma visit_in_constructor (n : node) :
  stays_on n = true ->
  forall (v : TreeVisitor C) (ci : ClassInfo),
    classinfo v = Some ci -> constructor v = true ->
    exists ci',
      classinfo (visit n v) = Some ci'
      /\ constructor (visit n v) = true
      /\ members ci' = fold_left register (self_attrs n) (members ci).
Proof.
  induction n as [name bs body IH|name a body IH|targets|children IH]
    using node_forall_ind; intros Hs v ci Hci Hon.
  - rewrite visit_ClassDef; cbn [set_classinfo classinfo constructor].
    exists ci; split; [exact Hci|]. split; [|reflexivity].
    rewrite constructor_done.
    cbn [stays_on] in Hs; rewrite forallb_forall in Hs.
    set (v1 := set_classinfo (Some (new_ClassInfo name bs)) v).
    assert (H1 : (exists c1, classinfo v1 = Some c1) /\ constructor v1 = true)
      by (split; [eexists; reflexivity | exact Hon]).
    revert H1; generalize v1; clear v1.
    induction body as [|c body IHb]; intros v1 [[c1 Hc1] Hon1];
      [exact Hon1|].
    rewrite visit_each_cons.
    inversion IH as [|? ? Hc Hbody]; subst.
    destruct (Hc (Hs c (or_introl eq_refl)) v1 c1 Hc1 Hon1) as (c2 & H2 & H3 & _).
    apply (IHb Hbody); [intros x Hx; apply Hs; right; exact Hx|].
    split; [exists c2; exact H2 | exact H3].
  - cbn [stays_on] in Hs; apply negb_true_iff, String.eqb_neq in Hs.
    rewrite visit_FunctionDef_method by congruence.
    rewrite constructor_on_classinfo. unfold on_classinfo; rewrite Hci.
    eexists; split; [reflexivity|]. split; [exact Hon | reflexivity].
  - rewrite visit_Assign_eq, constructor_visit_Assign.
    unfold visit_Assign; rewrite Hon.
    destruct (visit_member_targets targets v Hci) as (ci' & H1 & H2).
    exists ci'; split; [exact H1|]. split; [reflexivity | exact H2].
  - rewrite visit_Other. cbn [stays_on self_attrs] in *.
    rewrite forallb_forall in Hs.
    revert v ci Hci Hon; induction children as [|c children IHc];
      intros v ci Hci Hon.
    + exists ci; split; [exact Hci|]. split; [exact Hon | reflexivity].
    + rewrite visit_each_cons; cbn [flat_map]; rewrite fold_left_app.
      inversion IH as [|? ? Hc Hrest]; subst.
      destruct (Hc (Hs c (or_introl eq_refl)) v ci Hci Hon)
        as (c1 & H1 & H2 & H3).
      destruct (IHc Hrest (fun x Hx => Hs x (or_intror Hx)) _ _ H1 H2)
        as (c2 & H4 & H5 & H6).
      exists c2; split; [exact H4|]. split; [exact H5|].
      rewrite H6, H3; reflexivity.
Qed.

Lemma visit_constructor_body (body : list node) :
  forallb stays_on body = true ->
  forall (v : TreeVisitor C) (ci : ClassInfo),
    classinfo v = Some ci -> constructor v = true ->
    exists ci',
      classinfo (visit_each body v) = Some ci'
      /\ members ci'
         = fold_left register (flat_map self_attrs body) (members ci).
Proof.
  intros Hs v ci Hci Hon.
  destruct (@visit_in_constructor (Other body) Hs v ci Hci Hon)
    as (ci' & H1 & _ & H2).
  rewrite visit_Other in H1. exists ci'; split; assumption.
Qed.

End Members.

(** No record, reported or open, lists an instance member twice. *)
Definition members_unique (w : TreeVisitor (list ClassInfo)) : Prop :=
Forall (fun ci => NoDup (members ci)) (context w)
/\ (forall ci, classinfo w = Some ci -> NoDup (members ci)).

Lemma unique_on_classinfo f (w : TreeVisitor (list ClassInfo)) :
  (forall ci, NoDup (members ci) -> NoDup (members (f ci))) ->
  members_unique w -> members_unique (on_classinfo f w).
Proof.
  intros Hf [Hc Hi]; unfold on_classinfo.
  destruct (classinfo w) as [ci|] eqn:E; [|split; [exact Hc|]; rewrite E; exact Hi].
  split; [exact Hc|]. cbn; intros ci' [= <-]. apply Hf, Hi; reflexivity.
Qed.

Lemma unique_set_constructor b (w : TreeVisitor (list ClassInfo)) :
  members_unique w -> members_unique (set_constructor b w).
Proof. intros [Hc Hi]; split; assumption. Qed.

Lemma unique_visit_Assign targets (w : TreeVisitor (list ClassInfo)) :
  members_unique w -> members_unique (visit_Assign targets w).
Proof.
  intro H; unfold visit_Assign.
  destruct (constructor w); [|destruct (classinfo w) eqn:E; [|exact H]];
    apply (fold_left_invariant members_unique); try exact H;
    apply Forall_forall; intros t _ s Hs.
  - unfold visit_member_target.
    destruct t as [?|[id| | |] attr|?|?]; try assumption.
    destruct (String.eqb id "self"); [|assumption].
    apply unique_on_classinfo; [|assumption].
    intros ci Hci; rewrite members_add_member; apply NoDup_register, Hci.
  - unfold visit_classvar_target. destruct t; try assumption.
    apply unique_on_classinfo; [|assumption]. intros ci Hci; exact Hci.
Qed.

Lemma unique_visit (n : node) :
  forall w : TreeVisitor (list ClassInfo),
    members_unique w -> members_unique (visit n w).
Proof.
  induction n as [name bs body IH|name a body IH|targets|children IH]
    using node_forall_ind; intros w Hw.
  - rewrite visit_ClassDef.
    set (w1 := set_classinfo (Some (new_ClassInfo name bs)) w).
    assert (H1 : members_unique w1).
    { destruct Hw as [Hc _]; split; [exact Hc|].
      cbn; intros ci [= <-]; constructor. }
    apply (fold_left_invariant members_unique (fun s c => visit c s) IH)
      in H1.
    fold (visit_each body w1) in H1. destruct H1 as [Hc Hi].
    split; [|cbn [set_classinfo classinfo]; apply Hw].
    cbn [set_classinfo context]. unfold done.
    destruct (classinfo (visit_each body w1)) as [ci|] eqn:E; [|exact Hc].
    cbn [context]. apply Forall_app; split; [exact Hc|].
    constructor; [apply Hi; reflexivity | constructor].
  - destruct (classinfo w) eqn:E.
    + destruct (String.eqb_spec name "__init__") as [->|Hn].
      * rewrite visit_FunctionDef_init by congruence.
        apply unique_on_classinfo; [intros ci Hci; exact Hci|].
        apply unique_set_constructor.
        apply (fold_left_invariant members_unique (fun s c => visit c s) IH).
        apply unique_set_constructor, Hw.
      * rewrite visit_FunctionDef_method by congruence.
        apply unique_on_classinfo; [intros ci Hci; exact Hci | exact Hw].
    + rewrite visit_FunctionDef_outside; assumption.
  - rewrite visit_Assign_eq; apply unique_visit_Assign, Hw.
  - rewrite visit_Other.
    apply (fold_left_invariant members_unique (fun s c => visit c s) IH), Hw.
Qed.

(** A class whose constructor unpacks a pair into [self.x, self.t], twice:
    each assignment has one target, a tuple. *)
Definition unpacked_twice_class : node :=
ClassDef "C" []
  [FunctionDef "__init__" self_only
     [Assign [Tuple [Attribute (Name "self") "x";
                     Attribute (Name "self") "t"]];
      Assign [Tuple [Attribute (Name "self") "x";
                     Attribute (Name "self") "t"]]]].

Lemma unpacked_twice_class_reported :
  reported unpacked_twice_class fresh_visitor
  = [mk_ClassInfo "C" [] [] [] [mk_method "__init__" self_only]].
Proof. reflexivity. Qed.

(** C5, as stated, fails: a constructor body can assign [self.x] twice, by
    unpacking, and leave the instance members without [x]. *)
Lemma C5_counterexample :
  ~ (forall ci : ClassInfo,
        In ci (reported unpacked_twice_class fresh_visitor) ->
        count_occ string_dec (members ci) "x" = 1).
Proof.
  intro H. rewrite unpacked_twice_class_reported in H.
  specialize (H _ (or_introl eq_refl)). discriminate H.
Qed.

(** A constructor assigning [self.name], [self.age] and [self.name] again,
    the last inside a compound statement. *)
Definition name_age_name : list node :=
[Assign [Attribute (Name "self") "name"];
 Assign [Attribute (Name "self") "age"];
 Other [Assign [Attribute (Name "self") "name"]]].

(** C5, amended.  In every tree, no record that is reported, and no record
    left open, lists an instance member twice.  An assignment statement (an
    [Assign] node) registers an instance attribute for each of its targets
    that is itself of the shape [self.attr]; a tuple target is not looked
    into and registers nothing, and neither does an annotated or an
    augmented assignment, which are node kinds of their own.
    For a constructor body below which no further function definition named
    [__init__] is visited, the constructor adds to the instance members the
    attributes so registered, each once and in the order of first
    occurrence: an attribute that is such a target one or more times occurs
    exactly once, right behind the names first seen before it. *)
Theorem C5_instance_members {C : Type} {print : Context C} :
  (forall (n : node) (v : TreeVisitor C),
      (forall ci, classinfo v = Some ci -> NoDup (members ci)) ->
      Forall (fun ci => NoDup (members ci)) (reported n v)
      /\ (forall ci, classinfo (visit n v) = Some ci -> NoDup (members ci)))
  /\ (forall (a : arguments) (body : list node) (v : TreeVisitor C)
             (ci : ClassInfo),
         classinfo v = Some ci -> NoDup (members ci) ->
         forallb stays_on body = true ->
         exists ci',
           classinfo (visit (FunctionDef "__init__" a body) v) = Some ci'
           /\ members ci'
              = members ci
                ++ first_seen (members ci) (flat_map self_attrs body)
           /\ NoDup (members ci')
           /\ (forall x, In x (flat_map self_attrs body) ->
                 count_occ string_dec (members ci') x = 1)
           /\ (forall x pre post,
                 flat_map self_attrs body = pre ++ x :: post ->
                 ~ In x pre -> ~ In x (members ci) ->
                 exists rest,
                   members ci'
                   = (members ci ++ first_seen (members ci) pre) ++ x :: rest
                   /\ ~ In x rest))
  /\ (forall (elts : list expr) (attr : string) (target : expr),
         self_attrs (Assign [Attribute (Name "self") attr]) = [attr]
         /\ self_attrs (Assign [Tuple elts]) = []
         /\ self_attrs (AnnAssign target) = []
         /\ self_attrs (AugAssign target) = []
         /\ forall v : TreeVisitor C,
              visit (AnnAssign target) v = v
              /\ visit (AugAssign target) v = v
              /\ (constructor v = true -> visit (Assign [Tuple elts]) v = v)).
Proof.
  split; [|split].
  - intros n v Hv.
    assert (Hb : members_unique (bare v)) by (split; [constructor | exact Hv]).
    apply (unique_visit n) in Hb; destruct Hb as [Hc Hi].
    split; [exact Hc|].
    destruct (visit_bare n v) as (E & _ & _); rewrite E; exact Hi.
  - intros a body v ci Hci Hnd Hs.
    rewrite visit_FunctionDef_init by congruence.
    destruct (@visit_constructor_body C print body Hs
                (set_constructor true v) ci Hci eq_refl) as (c1 & H1 & H2).
    unfold on_classinfo; cbn [set_constructor classinfo]; rewrite H1.
    eexists; split; [reflexivity|]. cbn [set_classinfo add_method members].
    rewrite H2, register_all.
    assert (Hnd' : NoDup (members ci
                          ++ first_seen (members ci)
                               (flat_map self_attrs body))).
    { rewrite <- register_all. generalize (flat_map self_attrs body).
      intro l; revert Hnd; generalize (members ci).
      induction l as [|x l IH]; intros m Hm; [exact Hm|].
      cbn [fold_left]; apply IH, NoDup_register, Hm. }
    split; [reflexivity|]. split; [exact Hnd'|]. split.
    + intros x Hx. apply NoDup_count_occ'; [exact Hnd'|].
      rewrite <- register_all.
      revert Hx; generalize (flat_map self_attrs body).
      intro l; generalize (members ci).
      induction l as [|y l IH]; intros m Hx; [destruct Hx|].
      cbn [fold_left].
      assert (Hmono : forall l m z, In z m -> In z (fold_left register l m)).
      { clear. induction l as [|y l IH]; intros m z Hz; [exact Hz|].
        cbn [fold_left]; apply IH. unfold register.
        destruct (mem y m); [exact Hz | apply in_or_app; left; exact Hz]. }
      destruct Hx as [<-|Hx]; [|apply IH, Hx].
      apply Hmono. unfold register. destruct (mem y m) eqn:E;
        [apply mem_In, E | apply in_or_app; right; left; reflexivity].
    + intros x pre post Hsplit Hpre Hm. rewrite Hsplit.
      destruct (first_seen_position (members ci) pre post x Hpre Hm)
        as (rest & Hr & Hx).
      exists rest; split; [rewrite Hr, <- app_assoc; reflexivity | exact Hx].
  - intros elts attr target. do 4 (split; [reflexivity|]).
    intro v. split; [apply visit_Other|]. split; [apply visit_Other|].
    intro Hon. rewrite visit_Assign_eq; unfold visit_Assign; rewrite Hon.
    reflexivity.
Qed.

Lemma C5_instance_members_witness :
  exists ci',
    classinfo (visit (FunctionDef "__init__" self_only name_age_name)
                     (inside_Dog false)) = Some ci'
    /\ members ci' = ["name"; "age"]
    /\ count_occ string_dec (members ci') "name" = 1.
Proof.
  destruct (proj1 (proj2 (@C5_instance_members (list ClassInfo) recorder))
                  self_only name_age_name (inside_Dog false)
                  (new_ClassInfo "Dog" []) eq_refl (NoDup_nil string)
                  eq_refl)
    as (ci' & H1 & H2 & _ & H3 & _).
  exists ci'. split; [exact H1|]. split; [exact H2|].
  apply H3. left; reflexivity.
Defined.

(** ** Constructor mode, continued *)






(** ** Nested classes *)

Lemma fold_left_recorder (log0 log : list ClassInfo) :
  fold_left (fun c ci => print_classinfo ci c) log log0 = log0 ++ log.
Proof.
  revert log0; induction log as [|ci log IH]; intro log0; cbn [fold_left].
  - symmetry; apply app_nil_r.
  - rewrite IH; unfold print_classinfo, recorder; rewrite <- app_assoc;
      reflexivity.
Qed.

(** A recorder holds what it held before, then what the visit reports. *)
Lemma recorder_visit (n : node) (w : TreeVisitor (list ClassInfo)) :
  context (visit n w) = context w ++ reported n w.
Proof.
  destruct (visit_bare n w) as (_ & _ & H); rewrite H.
  apply fold_left_recorder.
Qed.

Lemma recorder_visit_each (l : list node) (w : TreeVisitor (list ClassInfo)) :
  context (visit_each l w) = context w ++ reported_each l w.
Proof.
  destruct (visit_each_bare l w) as (_ & _ & H); rewrite H.
  apply fold_left_recorder.
Qed.

Section Nesting.
Context {C : Type} {print : Context C}.

Lemma bare_visit_each (l : list node) (v : TreeVisitor C) :
  bare (visit_each l v) = bare (visit_each l (bare v)).
Proof.
  destruct (visit_each_bare l v) as (H1 & H2 & _).
  unfold bare; rewrite H1, H2; reflexivity.
Qed.

(** What a visit reports depends on the visitor's state only. *)
Lemma reported_bare (n : node) (v : TreeVisitor C)
      (w : TreeVisitor (list ClassInfo)) :
  bare v = bare w -> reported n v = reported n w.
Proof. unfold reported; intros ->; reflexivity. Qed.

Lemma reported_each_split (pre post : list node) (c : node)
      (w : TreeVisitor (list ClassInfo)) (v : TreeVisitor C) :
  bare v = bare w ->
  exists rest,
    reported_each (pre ++ c :: post) w
    = reported_each pre w ++ reported c (visit_each pre v) ++ rest.
Proof.
  intro Hvw. unfold reported_each at 1.
  rewrite visit_each_app, visit_each_cons.
  rewrite recorder_visit_each, recorder_visit.
  fold (reported_each pre w).
  assert (E : reported c (visit_each pre (bare w))
              = reported c (visit_each pre v)).
  { symmetry; apply reported_bare.
    rewrite bare_visit_each, Hvw; reflexivity. }
  rewrite E, <- app_assoc. eexists; reflexivity.
Qed.

End Nesting.

Section SameClass.
Context {C : Type} {print : Context C}.

Lemma keeps_class_on_classinfo f (v : TreeVisitor C) (ci : ClassInfo) :
  (forall c, classname (f c) = classname c /\ bases (f c) = bases c) ->
  classinfo v = Some ci ->
  exists ci', classinfo (on_classinfo f v) = Some ci'
              /\ classname ci' = classname ci /\ bases ci' = bases ci.
Proof.
  intros Hf Hci; unfold on_classinfo; rewrite Hci.
  exists (f ci); split; [reflexivity | apply Hf].
Qed.

Definition same_class (ci : ClassInfo) (v : TreeVisitor C) : Prop :=
exists ci', classinfo v = Some ci'
            /\ classname ci' = classname ci /\ bases ci' = bases ci.

Lemma same_class_on_classinfo f ci (v : TreeVisitor C) :
  (forall c, classname (f c) = classname c /\ bases (f c) = bases c) ->
  same_class ci v -> same_class ci (on_classinfo f v).
Proof.
  intros Hf (c1 & H1 & H2 & H3).
  destruct (keeps_class_on_classinfo f v Hf H1) as (c2 & H4 & H5 & H6).
  exists c2; split; [exact H4 | split; congruence].
Qed.

Lemma add_member_same (x : string) (c : ClassInfo) :
  classname (add_member x c) = classname c
  /\ bases (add_member x c) = bases c.
Proof.
  unfold add_member; destruct (negb (mem x (members c))); split; reflexivity.
Qed.

(** A visit leaves a record of the same class open. *)
Lemma visit_same_class (n : node) (ci : ClassInfo) :
  forall v : TreeVisitor C, same_class ci v -> same_class ci (visit n v).
Proof.
  induction n as [name bs body IH|name a body IH|targets|children IH]
    using node_forall_ind; intros v Hv.
  - rewrite visit_ClassDef. destruct Hv as (c1 & H1 & H2).
    exists c1; split; [exact H1 | exact H2].
  - pose proof Hv as (c1 & H1 & H2).
    destruct (String.eqb_spec name "__init__") as [->|Hn].
    + rewrite visit_FunctionDef_init by congruence.
      apply same_class_on_classinfo; [intro; split; reflexivity|].
      assert (H : same_class ci (visit_each body (set_constructor true v))).
      { apply (fold_left_invariant (same_class ci) (fun s c => visit c s) IH).
        exact Hv. }
      exact H.
    + rewrite visit_FunctionDef_method by congruence.
      apply same_class_on_classinfo; [intro; split; reflexivity | exact Hv].
  - rewrite visit_Assign_eq; unfold visit_Assign.
    destruct (constructor v).
    + apply (fold_left_invariant (same_class ci)); [|exact Hv].
      apply Forall_forall; intros t _ s Hs; unfold visit_member_target.
      destruct t as [?|[id| | |] attr|?|?]; try assumption.
      destruct (String.eqb id "self"); [|assumption].
      apply same_class_on_classinfo; [apply add_member_same | exact Hs].
    + destruct (classinfo v); [|exact Hv].
      apply (fold_left_invariant (same_class ci)); [|exact Hv].
      apply Forall_forall; intros t _ s Hs; unfold visit_classvar_target.
      destruct t; try assumption.
      apply same_class_on_classinfo; [intro; split; reflexivity | exact Hs].
  - rewrite visit_Other.
    apply (fold_left_invariant (same_class ci) (fun s c => visit c s) IH).
    exact Hv.
Qed.

(** Constructor mode is on only while a record is open, so the calls
    [self.classinfo.add_member(...)] of [visit_Assign] always find one. *)
Definition guarded (v : TreeVisitor C) : Prop :=
constructor v = true -> classinfo v <> None.

Lemma visit_guard (n : node) (v : TreeVisitor C) :
  guarded v -> guarded (visit n v).
Proof.
  intros Hg Hon.
  destruct (constructor v) eqn:E.
  - destruct (classinfo v) as [ci|] eqn:Hci;
      [|exfalso; apply (Hg E); exact Hci].
    assert (Hs : same_class ci v) by (exists ci; repeat split; exact Hci).
    apply (visit_same_class n) in Hs; destruct Hs as (ci' & H & _).
    congruence.
  - rewrite (visit_constructor_off n v E) in Hon; discriminate Hon.
Qed.

Lemma fresh_guarded (ctx : C) : guarded (new_TreeVisitor ctx).
Proof. intro H; discriminate H. Qed.

End SameClass.

Section Segments.
Context {C : Type} {print : Context C}.

(** A class definition reports what its body reports and then, last, its own
    record. *)
Lemma class_reported_last (name : string) (bs : list expr)
      (body : list node) (v : TreeVisitor C) :
  exists ci,
    reported (ClassDef name bs body) v
    = reported_each body (set_classinfo (Some (new_ClassInfo name bs)) v)
      ++ [ci]
    /\ classname ci = name /\ bases ci = bs.
Proof.
  unfold reported; rewrite visit_ClassDef.
  set (w1 := set_classinfo (Some (new_ClassInfo name bs)) (bare v)).
  change (context (set_classinfo (classinfo (bare v))
                                 (done (visit_each body w1))))
    with (context (done (visit_each body w1))).
  assert (Hs : same_class (new_ClassInfo name bs) (visit_each body w1)).
  { apply (fold_left_invariant (same_class (new_ClassInfo name bs))
                               (fun s c => visit c s)).
    - apply Forall_forall; intros c _; apply visit_same_class.
    - exists (new_ClassInfo name bs); repeat split. }
  destruct Hs as (ci & H1 & H2 & H3).
  unfold done; rewrite H1; cbn [context].
  exists ci; split; [|split; assumption].
  unfold print_classinfo, recorder. rewrite recorder_visit_each.
  reflexivity.
Qed.

(** The reports of a called child are a segment of the reports of the
    caller, before the caller's own record if it is a class. *)
Lemma calls_segment d (vd : TreeVisitor C) c vc :
  calls d vd c vc ->
  exists pre post,
    reported d vd = pre ++ reported c vc ++ post
    /\ (forall name bs body, d = ClassDef name bs body -> post <> []).
Proof.
  intro Hc; inversion Hc as [name bs pre c' post v|a pre c' post v Hv
                            |pre c' post v]; subst.
  - destruct (class_reported_last name bs (pre ++ c :: post) vd)
      as (ci & H & _).
    destruct (reported_each_split pre post c
                (w := bare (set_classinfo (Some (new_ClassInfo name bs)) vd))
                (v := set_classinfo (Some (new_ClassInfo name bs)) vd) eq_refl)
      as (rest & Hr).
    change (reported_each (pre ++ c :: post)
              (set_classinfo (Some (new_ClassInfo name bs)) vd))
      with (reported_each (pre ++ c :: post)
              (bare (set_classinfo (Some (new_ClassInfo name bs)) vd))) in H.
    rewrite Hr in H. rewrite H, <- !app_assoc.
    eexists; eexists; split; [reflexivity|].
    intros _ _ _ _ E; destruct rest; discriminate E.
  - unfold reported at 1. rewrite visit_FunctionDef_init by exact Hv.
    rewrite context_on_classinfo.
    destruct (reported_each_split pre post c
                (w := bare (set_constructor true vd))
                (v := set_constructor true vd) eq_refl) as (rest & Hr).
    match goal with
    | |- exists pre0 post0, ?L = _ /\ _ =>
        change L with (reported_each (pre ++ c :: post)
                                     (bare (set_constructor true vd)))
    end.
    rewrite Hr. eexists; eexists; split; [reflexivity | discriminate].
  - unfold reported at 1. rewrite visit_Other.
    destruct (reported_each_split pre post c (w := bare vd) (v := vd) eq_refl)
      as (rest & Hr).
    match goal with
    | |- exists pre0 post0, ?L = _ /\ _ =>
        change L with (reported_each (pre ++ c :: post) (bare vd))
    end.
    rewrite Hr. eexists; eexists; split; [reflexivity | discriminate].
Qed.

Lemma within_segment b n (v : TreeVisitor C) d vd :
  within b n v d vd ->
  exists pre post, reported n v = pre ++ reported d vd ++ post.
Proof.
  induction 1 as [n v|b n v d vd c vc Hw IH Hc].
  - exists [], []; rewrite app_nil_r; reflexivity.
  - destruct IH as (pre & post & IH).
    destruct (calls_segment Hc) as (pre' & post' & H & _).
    rewrite IH, H. exists (pre ++ pre'), (post' ++ post).
    rewrite <- !app_assoc; reflexivity.
Qed.

End Segments.

Section NestedClasses.
Context {C : Type} {print : Context C}.

(** A node called below a class definition reports inside what the body of
    that class reports, before the record of the class. *)
Lemma called_below_class b name bs body (v : TreeVisitor C) d vd c vc :
  within b (ClassDef name bs body) v d vd -> calls d vd c vc ->
  exists pre post,
    reported (ClassDef name bs body) v = pre ++ reported c vc ++ post
    /\ post <> [].
Proof.
  intros Hw Hc.
  remember (ClassDef name bs body) as outer eqn:Eo.
  revert c vc Hc.
  induction Hw as [n v|b n v d' vd' d vd Hw IH Hd]; intros c vc Hc.
  - destruct (calls_segment Hc) as (pre & post & H & Hpost).
    exists pre, post; split; [exact H | exact (Hpost _ _ _ Eo)].
  - destruct (IH Eo _ _ Hd) as (pre & post & H & Hpost).
    destruct (calls_segment Hc) as (pre' & post' & H' & _).
    exists (pre ++ pre'), (post' ++ post); split.
    + rewrite H, H', <- !app_assoc; reflexivity.
    + intro E; apply app_eq_nil in E; destruct E as [_ E]; contradiction.
Qed.

Lemma nested_before_enclosing b oname obs obody (v : TreeVisitor C) d vd
      iname ibs ibody vi :
  within b (ClassDef oname obs obody) v d vd ->
  calls d vd (ClassDef iname ibs ibody) vi ->
  exists pre mid ci_in ci_out,
    reported (ClassDef oname obs obody) v = pre ++ ci_in :: mid ++ [ci_out]
    /\ classname ci_in = iname /\ bases ci_in = ibs
    /\ classname ci_out = oname /\ bases ci_out = obs.
Proof.
  intros Hw Hc.
  destruct (called_below_class Hw Hc) as (pre & post & H & Hpost).
  destruct (class_reported_last oname obs obody v) as (ci_out & Ho & Ho1 & Ho2).
  destruct (class_reported_last iname ibs ibody vi) as (ci_in & Hi & Hi1 & Hi2).
  destruct (exists_last Hpost) as (mid & l & ->).
  rewrite Hi in H.
  assert (E : l = ci_out).
  { rewrite Ho in H.
    replace (pre ++ (reported_each ibody
                       (set_classinfo (Some (new_ClassInfo iname ibs)) vi)
                     ++ [ci_in]) ++ mid ++ [l])
      with ((pre ++ (reported_each ibody
                       (set_classinfo (Some (new_ClassInfo iname ibs)) vi)
                     ++ [ci_in]) ++ mid) ++ [l]) in H
      by (rewrite <- !app_assoc; reflexivity).
    apply app_inj_tail in H; destruct H as [_ H]; symmetry; exact H. }
  subst l.
  exists (pre ++ reported_each ibody
                   (set_classinfo (Some (new_ClassInfo iname ibs)) vi)),
    mid, ci_in, ci_out.
  split; [rewrite H, <- !app_assoc; reflexivity|].
  repeat split; assumption.
Qed.

End NestedClasses.

(** [Outer] with a nested [Inner] and a class variable of its own. *)
Definition outer_inner : node :=
ClassDef "Outer" []
  [ClassDef "Inner" [] [Other []];
   Assign [Name "x"]].

(** X16.  Records are reported in the order the class bodies are finished.
    A class definition reports what the traversal of its body reports and
    then, last, its own record; hence a class definition visited at any
    depth below another one is reported before it, and the generator writes
    the lines of the reported records in the order they are reported.  The
    visit of a class definition hands back the record that was open before
    it, and, when it is entered with constructor mode off, the whole state
    of the visitor as it was. *)
Theorem X16_nested_classes_reported_first :
  (forall name bs body (v : TreeVisitor PUML_Generator),
      classinfo (visit (ClassDef name bs body) v) = classinfo v
      /\ (constructor v = false ->
          bare (visit (ClassDef name bs body) v) = bare v))
  /\ (forall name bs body (v : TreeVisitor PUML_Generator),
         exists ci,
           reported (ClassDef name bs body) v
           = reported_each body
               (set_classinfo (Some (new_ClassInfo name bs)) v) ++ [ci]
           /\ classname ci = name /\ bases ci = bs)
  /\ (forall b oname obs obody (v : TreeVisitor PUML_Generator) d vd
             iname ibs ibody vi,
         within b (ClassDef oname obs obody) v d vd ->
         calls d vd (ClassDef iname ibs ibody) vi ->
         exists pre mid ci_in ci_out,
           reported (ClassDef oname obs obody) v
           = pre ++ ci_in :: mid ++ [ci_out]
           /\ classname ci_in = iname /\ bases ci_in = ibs
           /\ classname ci_out = oname /\ bases ci_out = obs)
  /\ (forall n (v : TreeVisitor PUML_Generator),
         dest (context (visit n v))
         = dest (context v)
           ++ flat_map (class_lines (depth (context v))) (reported n v)).
Proof.
  split; [|split; [|split]].
  - intros name bs body v.
    assert (H : classinfo (visit (ClassDef name bs body) v) = classinfo v)
      by (rewrite visit_ClassDef; reflexivity).
    split; [exact H|].
    intro Hoff; unfold bare; rewrite H.
    rewrite (visit_constructor_off _ _ Hoff), Hoff; reflexivity.
  - intros; apply class_reported_last.
  - intros b oname obs obody v d vd iname ibs ibody vi.
    apply nested_before_enclosing.
  - intros n v; rewrite visit_emit; reflexivity.
Qed.

Lemma X16_nested_classes_reported_first_witness :
  exists pre mid ci_in ci_out,
    reported outer_inner (new_TreeVisitor (new_PUML_Generator None None))
    = pre ++ ci_in :: mid ++ [ci_out]
    /\ classname ci_in = "Inner" /\ bases ci_in = []
    /\ classname ci_out = "Outer" /\ bases ci_out = [].
Proof.
  destruct X16_nested_classes_reported_first as (_ & _ & H & _).
  refine (H false "Outer" [] _ _ _ _ "Inner" [] [Other []] _
            (within_here _ _) _).
  exact (calls_ClassDef "Outer" [] [] (ClassDef "Inner" [] [Other []])
                        [Assign [Name "x"]]
                        (new_TreeVisitor (new_PUML_Generator None None))).
Defined.

Lemma outer_inner_reported :
  reported outer_inner (new_TreeVisitor (new_PUML_Generator None None))
  = [mk_ClassInfo "Inner" [] [] [] [];
     mk_ClassInfo "Outer" [] ["x"] [] []].
Proof. reflexivity. Qed.

(** [Outer], whose constructor assigns [self.a], defines a class [Inner]
    with a constructor of its own, assigns the plain name [tmp] and assigns
    [self.c]. *)
Definition outer_nested_constructor : node :=
ClassDef "Outer" []
  [FunctionDef "__init__" self_only
     [Assign [Attribute (Name "self") "a"];
      ClassDef "Inner" []
        [FunctionDef "__init__" self_only
           [Assign [Attribute (Name "self") "b"]]];
      Assign [Name "tmp"];
      Assign [Attribute (Name "self") "c"]]].

(** The same [Outer] without the nested class. *)
Definition outer_alone : node :=
ClassDef "Outer" []
  [FunctionDef "__init__" self_only
     [Assign [Attribute (Name "self") "a"];
      Assign [Name "tmp"];
      Assign [Attribute (Name "self") "c"]]].

(** C2 fails on the code: [visit_ClassDef] saves and restores the open
    record, not constructor mode.  A class nested in a constructor and having
    a constructor of its own hands the visitor back with the mode off, and
    the record of the enclosing class is not what it is without the nested
    class: [self.c] is missing from its instance members and the plain name
    [tmp] is listed as a class variable. *)
Theorem C2_nested_constructor_changes_enclosing_record :
  reported outer_nested_constructor fresh_visitor
  = [mk_ClassInfo "Inner" [] [] ["b"] [mk_method "__init__" self_only];
     mk_ClassInfo "Outer" [] ["tmp"] ["a"] [mk_method "__init__" self_only]]
  /\ reported outer_alone fresh_visitor
     = [mk_ClassInfo "Outer" [] [] ["a"; "c"]
          [mk_method "__init__" self_only]]
  /\ constructor (inside_Dog true) = true
  /\ constructor
       (visit (ClassDef "Inner" []
                 [FunctionDef "__init__" self_only
                    [Assign [Attribute (Name "self") "b"]]])
              (inside_Dog true)) = false
  /\ classinfo
       (visit (ClassDef "Inner" []
                 [FunctionDef "__init__" self_only
                    [Assign [Attribute (Name "self") "b"]]])
              (inside_Dog true)) = classinfo (inside_Dog true).
Proof. repeat split. Qed.

(** ** Class variables *)

(** A class body assigning the plain name [x] twice. *)
Definition x_twice_class : node :=
ClassDef "C" [] [Assign [Name "x"]; Assign [Name "x"]].

(** C7 fails on the code: [add_classvar] appends without looking, so a name
    assigned twice in the class body is listed twice and gets two
    static-member lines. *)
Theorem C7_classvars_repeat :
  reported x_twice_class fresh_visitor
  = [mk_ClassInfo "C" [] ["x"; "x"] [] []]
  /\ dest (context (visit x_twice_class
                          (new_TreeVisitor (new_PUML_Generator None None))))
     = [mk_out_line 0 ["class"; "C"; "{"];
        mk_out_line 0 ["  {static}"; "+x"];
        mk_out_line 0 ["  {static}"; "+x"];
        mk_out_line 0 ["}" +++ Py.LF]]
  /\ ~ NoDup (classvars (mk_ClassInfo "C" [] ["x"; "x"] [] [])).
Proof.
  split; [reflexivity|]. split; [reflexivity|].
  intro H; inversion H as [|x l Hx _]; subst. apply Hx; left; reflexivity.
Qed.

(** ** The Dog scenario *)

(** [class Animal: pass] and [class Dog(Animal)] with a class variable
    [species], a constructor setting [self.name] and [self.age], and a
    method [bark(self)]. *)
Definition dog_module : node :=
Other
  [ClassDef "Animal" [] [Other []];
   ClassDef "Dog" [Name "Animal"]
     [Assign [Name "species"];
      FunctionDef "__init__" (mk_arguments ["self"; "name"; "age"] None None)
        [Assign [Attribute (Name "self") "name"];
         Assign [Attribute (Name "self") "age"]];
      FunctionDef "bark" self_only [Other []]]].

(** The run of the main program on one file holding [dog_module], without
    root directory and with an empty configuration. *)
Definition dog_run (cwd : string) : result PUML_Generator :=
run cwd (fun _ => Ok "") (fun _ => Ok dog_module)
    None (mk_Config None None) ["zoo.py"].

(** [needle in hay]. *)
Fixpoint contains (needle hay : string) : bool :=
match hay with
| EmptyString => Py.startswith hay needle
| String _ rest => Py.startswith hay needle || contains needle rest
end.

Definition lines_text (ls : list string) : string :=
String.concat "" (map (fun l => l +++ Py.LF) ls).

Definition dog_document : string :=
lines_text
  ["@startuml";
   "class Animal {";
   "}";
   "";
   "Animal <|-- Dog";
   "class Dog {";
   "  {static} +species";
   "  +name";
   "  +age";
   "  -__init__(self, name, age)";
   "  +bark(self)";
   "}";
   "";
   "@enduml"].

(** C8, as stated, fails: the output of the scenario holds no method line
    [+bark()], nor that text anywhere. *)
Lemma C8_counterexample :
  ~ (exists g : PUML_Generator,
        dog_run "/" = Ok g
        /\ contains "+bark()" (document (dest g)) = true).
Proof.
  intros (g & Hrun & Hc). vm_compute in Hrun. injection Hrun as <-.
  vm_compute in Hc. discriminate Hc.
Qed.

(** C8, amended.  The scenario runs to the end and writes exactly
    [dog_document]: the block of [Animal], whose base list is empty, without
    inheritance line; the inheritance line [Animal <|-- Dog]; the block of
    [Dog] with the static member [species], the public instance members
    [name] and [age], and one line per method with its parameter list in
    full, [-__init__(self, name, age)] and [+bark(self)]. *)
Theorem C8_dog_scenario (cwd : string) :
  exists g : PUML_Generator,
    dog_run cwd = Ok g
    /\ document (dest g) = dog_document
    /\ reported dog_module fresh_visitor
       = [mk_ClassInfo "Animal" [] [] [] [];
          mk_ClassInfo "Dog" [Name "Animal"] ["species"] ["name"; "age"]
            [mk_method "__init__"
                       (mk_arguments ["self"; "name"; "age"] None None);
             mk_method "bark" self_only]]
    /\ inheritance_lines 0 (new_ClassInfo "Animal" []) = []
    /\ In (mk_out_line 0 ["Animal"; "<|--"; "Dog"]) (dest g)
    /\ In (mk_out_line 0 ["  {static}"; "+species"]) (dest g)
    /\ In (mk_out_line 0 ["  +name"]) (dest g)
    /\ In (mk_out_line 0 ["  +age"]) (dest g)
    /\ In (mk_out_line 0 ["  +bark(self)"]) (dest g)
    /\ In (mk_out_line 0 ["  -__init__(self, name, age)"]) (dest g).
Proof.
  eexists; split; [vm_compute; reflexivity|].
  split; [vm_compute; reflexivity|].
  split; [reflexivity|]. split; [reflexivity|].
  cbn [dest]; repeat split; cbn [In]; tauto.
Qed.

(** ** Unparsable input *)

(** C9 fails on the code: when parsing a file raises [SyntaxError], the
    handler prints [Syntax error in ] and then fails itself on
    [cl_args.py_file.name]; neither the path nor the position is printed,
    and the run ends on an uncaught [AttributeError]. *)
Theorem C9_syntax_error_not_reported
        (cwd : string) (read_file : string -> result string)
        (ast_parse : string -> result node)
        (root_arg : option string) (cfg : Config) (py_file : list string)
        (lineno offset : nat) (text : string) :
  run cwd read_file ast_parse root_arg cfg py_file
  = Raise (SyntaxError lineno offset text) ->
  main cwd read_file ast_parse root_arg cfg py_file
  = mk_outcome "Syntax error in " (Some (AttributeError "list" "name")) None.
Proof. intro H; unfold main; rewrite H; reflexivity. Qed.

(** A parser that rejects every text at line 1, column 7. *)
Definition reject_all (src : string) : result node :=
Raise (SyntaxError 1 7 src).

Lemma C9_syntax_error_not_reported_witness :
  run "/" (fun _ => Ok "class :") reject_all None (mk_Config None None)
      ["bad.py"]
  = Raise (SyntaxError 1 7 "class :")
  /\ main "/" (fun _ => Ok "class :") reject_all None (mk_Config None None)
          ["bad.py"]
     = mk_outcome "Syntax error in " (Some (AttributeError "list" "name")) None
  /\ contains "bad.py"
       (stdout (main "/" (fun _ => Ok "class :") reject_all None
                     (mk_Config None None) ["bad.py"])) = false.
Proof.
  assert (H : run "/" (fun _ => Ok "class :") reject_all None
                  (mk_Config None None) ["bad.py"]
              = Raise (SyntaxError 1 7 "class :")) by reflexivity.
  split; [exact H|].
  rewrite (C9_syntax_error_not_reported _ _ _ _ _ _ H).
  split; reflexivity.
Defined.

(** * Further properties of the code *)

(** ** ClassInfo *)

(** X1.  The visibility of a name is [-] exactly when the name starts with
    an underscore, and [+] in every other case, the empty name included. *)
Theorem X1_visibility_by_prefix (name : string) :
  (visibility name = "-" <-> exists rest, name = "_" +++ rest)
  /\ (visibility name = "+" <-> ~ exists rest, name = "_" +++ rest)
  /\ visibility "" = "+".
Proof.
  unfold visibility. destruct name as [|c rest].
  - cbn. repeat split; try discriminate; try reflexivity.
    + intros [r Hr]; discriminate Hr.
    + intros _ [r Hr]; discriminate Hr.
  - cbn [Py.startswith]. rewrite andb_true_r.
    destruct (Ascii.eqb_spec c "_"%char) as [->|Hc].
    + repeat split; try discriminate; try reflexivity.
      * intros _; exists rest; reflexivity.
      * intro H; exfalso; apply H; exists rest; reflexivity.
    + repeat split; try discriminate; try reflexivity.
      * intros [r Hr]; cbn in Hr; injection Hr as Hc' _; contradiction.
      * intros _ [r Hr]; cbn in Hr; injection Hr as Hc' _; contradiction.
Qed.

(** X2.  [add_member] is idempotent; afterwards the name is a member; the
    members there were keep their places at the front; a list without
    duplicates stays without duplicates; nothing else of the record
    changes. *)
Theorem X2_add_member_once (x : string) (ci : ClassInfo) :
  add_member x (add_member x ci) = add_member x ci
  /\ In x (members (add_member x ci))
  /\ (exists tail, members (add_member x ci) = members ci ++ tail
                   /\ (tail = [] \/ tail = [x]))
  /\ (NoDup (members ci) -> NoDup (members (add_member x ci)))
  /\ (In x (members ci) -> add_member x ci = ci)
  /\ classname (add_member x ci) = classname ci
  /\ bases (add_member x ci) = bases ci
  /\ classvars (add_member x ci) = classvars ci
  /\ methods (add_member x ci) = methods ci.
Proof.
  assert (Hin : In x (members (add_member x ci))).
  { rewrite members_add_member; unfold register.
    destruct (mem x (members ci)) eqn:E;
      [apply mem_In, E | apply in_or_app; right; left; reflexivity]. }
  split.
  { apply mem_In in Hin. unfold add_member at 1. rewrite Hin; reflexivity. }
  split; [exact Hin|]. split.
  { rewrite members_add_member; unfold register.
    destruct (mem x (members ci));
      [exists []; rewrite app_nil_r; split; [reflexivity | left; reflexivity]
      |exists [x]; split; [reflexivity | right; reflexivity]]. }
  split; [intro H; rewrite members_add_member; apply NoDup_register, H|].
  split.
  { intro H; apply mem_In in H; unfold add_member; rewrite H; reflexivity. }
  unfold add_member; destruct (negb (mem x (members ci))); repeat split.
Qed.

(** ** Opening and closing namespaces *)

Lemma pop_ns_underflow (count : nat) (g : PUML_Generator) :
  depth g < count -> pop_ns count g = Raise IndexError.
Proof.
  revert g; induction count as [|k IH]; intros g H; [lia|].
  cbn [pop_ns]; unfold pop.
  destruct (namespaces g) as [|x ns] eqn:E; [reflexivity|].
  cbn [bind]. apply IH.
  unfold depth in H; rewrite E in H; cbn [List.length] in H.
  unfold depth; cbn [indent set_namespaces namespaces].
  rewrite (removelast_firstn_len (x :: ns)).
  rewrite (length_firstn (Nat.pred (List.length (x :: ns))) (x :: ns)).
  cbn [List.length Nat.pred]; lia.
Qed.

(** X3.  [pop_ns count] succeeds exactly when at least [count] namespaces
    are open: it then removes the [count] innermost ones and writes [count]
    closing lines; asked for more than are open it raises [IndexError]. *)
Theorem X3_pop_ns_bounds (count : nat) (g : PUML_Generator) :
  (count <= depth g ->
   exists g', pop_ns count g = Ok g'
              /\ namespaces g' = firstn (depth g - count) (namespaces g)
              /\ depth g' = depth g - count
              /\ dest g' = dest g ++ close_lines (depth g) count
              /\ count_close (close_lines (depth g) count) = count
              /\ count_open (close_lines (depth g) count) = 0)
  /\ (depth g < count -> pop_ns count g = Raise IndexError).
Proof.
  split; [|apply pop_ns_underflow].
  intro H; rewrite (pop_ns_ok g H). eexists; split; [reflexivity|].
  destruct (count_close_lines (depth g) count) as [Hc Ho].
  cbn [moved namespaces dest]; repeat split; try assumption;
    try reflexivity.
  unfold depth at 1; cbn [moved namespaces]; rewrite length_firstn.
  unfold depth in *; lia.
Qed.

Lemma X3_pop_ns_bounds_witness :
  pop_ns 1 gen_b_X
  = Ok (mk_PUML_Generator
          [mk_out_line 0 ["namespace b {"]; mk_out_line 1 ["namespace X {"];
           mk_out_line 1 ["}"]]
          (Some "a") None ["b"] (Some "a/b/X.py"))
  /\ pop_ns 3 gen_b_X = Raise IndexError.
Proof.
  destruct (X3_pop_ns_bounds 3 gen_b_X) as [_ H].
  split; [reflexivity | apply H; cbn; lia].
Defined.

Lemma depths_open_lines (d : nat) (names : list string) :
  map ol_depth (open_lines d names) = seq d (List.length names).
Proof.
  revert d; induction names as [|x names IH]; intro d; cbn; [|rewrite IH];
    reflexivity.
Qed.

Lemma depths_close_lines (d count : nat) :
  map ol_depth (close_lines (d + count) count) = rev (seq d count).
Proof.
  induction count as [|k IH]; [reflexivity|].
  rewrite seq_S, rev_app_distr; cbn [rev app close_lines map ol_depth].
  replace (d + S k - 1) with (d + k) by lia. rewrite IH; reflexivity.
Qed.

(** X4.  Opening namespaces one inside the other and closing as many again
    never raises and gives back the stack there was; the closing lines are
    written at the depths of the opening lines, innermost first. *)
Theorem X4_push_pop_round_trip (names : list string) (g : PUML_Generator) :
  exists g',
    pop_ns (List.length names) (fold_left (fun g d => push_ns d g) names g)
    = Ok g'
    /\ namespaces g' = namespaces g
    /\ dest g' = dest g ++ open_lines (depth g) names
                        ++ close_lines (depth g + List.length names)
                                       (List.length names)
    /\ map ol_depth (close_lines (depth g + List.length names)
                                 (List.length names))
       = rev (map ol_depth (open_lines (depth g) names))
    /\ root g' = root g /\ config g' = config g
    /\ sourcename g' = sourcename g.
Proof.
  rewrite push_all.
  set (g1 := moved (open_lines (depth g) names) (namespaces g ++ names) g).
  assert (Hd : depth g1 = depth g + List.length names)
    by (unfold g1, depth; cbn [moved namespaces]; apply length_app).
  rewrite pop_ns_ok by lia. eexists; split; [reflexivity|].
  rewrite Hd. cbn [moved namespaces dest root config sourcename g1].
  repeat split.
  - replace (depth g + List.length names - List.length names)
      with (List.length (namespaces g)) by (unfold depth; lia).
    rewrite firstn_app, firstn_all, Nat.sub_diag; cbn [firstn].
    apply app_nil_r.
  - rewrite <- app_assoc; reflexivity.
  - rewrite depths_close_lines, depths_open_lines; reflexivity.
Qed.

(** ** Starting a file *)

Lemma commonprefix_len_refl (l : list string) :
  OsPath.commonprefix_len l l = List.length l.
Proof.
  induction l as [|x l IH]; [reflexivity|].
  cbn [OsPath.commonprefix_len List.length]; rewrite String.eqb_refl, IH.
  reflexivity.
Qed.

Lemma split_not_nil (sep : ascii) (s : string) : Py.split sep s <> [].
Proof.
  destruct s as [|c r]; cbn [Py.split]; [discriminate|].
  destruct (Ascii.eqb c sep); [discriminate|].
  destruct (Py.split sep r); discriminate.
Qed.

Lemma start_file_no_root (cwd src : string) (g : PUML_Generator) :
  root_dir g = None -> start_file cwd src g = Ok (set_sourcename (Some src) g).
Proof.
  intro H; unfold start_file.
  replace (root_dir (set_sourcename (Some src) g)) with (root_dir g)
    by reflexivity.
  rewrite H; reflexivity.
Qed.

Lemma start_file_cases (cwd src : string) (g g' : PUML_Generator) :
  start_file cwd src g = Ok g' ->
  (root_dir g = None /\ g' = set_sourcename (Some src) g)
  \/ (exists r target,
         root_dir g = Some r
         /\ target_namespaces cwd r src = Ok target
         /\ g' = moved (close_lines (depth g)
                          (depth g - common_prefix_length (namespaces g) target)
                        ++ open_lines
                             (common_prefix_length (namespaces g) target)
                             (skipn (common_prefix_length (namespaces g) target)
                                    target))
                       target (set_sourcename (Some src) g)).
Proof.
  intro Hs. destruct (root_dir g) as [r|] eqn:Hr.
  - right. destruct (target_namespaces cwd r src) as [target|e] eqn:Ht.
    + rewrite (start_file_ok cwd src g Hr Ht) in Hs; injection Hs as <-.
      exists r, target; repeat split; assumption.
    + unfold start_file in Hs.
      replace (root_dir (set_sourcename (Some src) g)) with (root_dir g) in Hs
        by reflexivity.
      rewrite Hr, Ht in Hs; discriminate Hs.
  - left. rewrite (start_file_no_root cwd src g Hr) in Hs.
    injection Hs as <-; split; reflexivity.
Qed.

(** X5.  Starting the file that is already the current one changes nothing:
    no namespace is closed or opened and nothing is written. *)
Theorem X5_start_file_again (cwd src : string) (g g1 : PUML_Generator) :
  start_file cwd src g = Ok g1 -> start_file cwd src g1 = Ok g1.
Proof.
  intro Hs. destruct (start_file_cases _ _ _ Hs) as [[Hr ->]|H].
  - rewrite start_file_no_root by exact Hr. reflexivity.
  - destruct H as (r & target & Hr & Ht & ->).
    set (L := close_lines _ _ ++ open_lines _ _).
    set (g1 := moved L target (set_sourcename (Some src) g)).
    assert (Hr1 : root_dir g1 = Some r) by exact Hr.
    rewrite (start_file_ok cwd src g1 Hr1 Ht).
    replace (namespaces g1) with target by reflexivity.
    replace (depth g1) with (List.length target) by reflexivity.
    unfold common_prefix_length; rewrite commonprefix_len_refl.
    rewrite Nat.sub_diag, skipn_all; cbn [close_lines open_lines app].
    f_equal. unfold moved, g1; cbn [moved set_sourcename dest root config
                                      namespaces sourcename].
    rewrite app_nil_r; reflexivity.
Qed.

Lemma X5_start_file_again_witness :
  start_file "/" "a/b/X.py" gen_b_X = Ok gen_b_X.
Proof. exact (X5_start_file_again _ _ _ (start_a_b_X "/")). Defined.

(** X7.  Under a root directory, starting a file with an empty path raises
    [ValueError]; starting any other file never raises, makes the stack the
    segments of the file's path below the root, and so leaves at least one
    namespace open. *)
Theorem X7_start_file_under_root (cwd src r : string) (g : PUML_Generator) :
  root_dir g = Some r ->
  (src = "" -> start_file cwd src g = Raise ValueError)
  /\ (src <> "" ->
      exists g' target,
        start_file cwd src g = Ok g'
        /\ target_namespaces cwd r src = Ok target
        /\ namespaces g' = target
        /\ 1 <= depth g'
        /\ sourcename g' = Some src).
Proof.
  intro Hr; split.
  - intros ->. unfold start_file.
    replace (root_dir (set_sourcename (Some "") g)) with (root_dir g)
      by reflexivity.
    rewrite Hr; reflexivity.
  - intro Hsrc.
    assert (Ht : Py.truthy src = true) by (destruct src; [congruence|reflexivity]).
    destruct (target_namespaces_total cwd r src Ht) as [target Htarget].
    rewrite (start_file_ok cwd src g Hr Htarget).
    eexists; exists target; split; [reflexivity|].
    repeat split; try assumption.
    unfold depth; cbn [moved namespaces].
    unfold target_namespaces in Htarget.
    destruct (OsPath.relpath cwd src r) as [rel|e]; [|discriminate Htarget].
    cbn [bind] in Htarget; injection Htarget as <-.
    pose proof (split_not_nil OsPath.sep (OsPath.splitext_root rel)) as Hn.
    destruct (Py.split OsPath.sep (OsPath.splitext_root rel));
      [congruence | cbn; lia].
Qed.

Lemma X7_start_file_under_root_witness :
  start_file "/" "" gen_root_a = Raise ValueError
  /\ exists g' target,
       start_file "/" "a/b/X.py" gen_root_a = Ok g'
       /\ target_namespaces "/" "a" "a/b/X.py" = Ok target
       /\ namespaces g' = target
       /\ 1 <= depth g'
       /\ sourcename g' = Some "a/b/X.py".
Proof.
  destruct (@X7_start_file_under_root "/" "" "a" gen_root_a eq_refl)
    as [H1 _].
  destruct (@X7_start_file_under_root "/" "a/b/X.py" "a" gen_root_a eq_refl)
    as [_ H2].
  split; [apply H1; reflexivity | apply H2; discriminate].
Defined.

(** ** The frame of the document *)

(** The line an optional text gives at depth [d]: none for a missing or an
    empty text. *)
Definition option_lines (d : nat) (o : option string) : list out_line :=
match o with
| Some t => if Py.truthy t then [mk_out_line d [t +++ Py.LF]] else []
| None => []
end.

Definition prolog_of (cfg : option Config) : option string :=
match cfg with
| Some c => prolog c
| None => None
end.

Definition epilog_of (cfg : option Config) : option string :=
match cfg with
| Some c => epilog c
| None => None
end.

Lemma header_frame (g : PUML_Generator) :
  header g
  = emit (mk_out_line (depth g) ["@startuml"]
          :: option_lines (depth g) (prolog_of (config g))) g.
Proof.
  unfold header.
  replace (config (indent ["@startuml"] g)) with (config g) by reflexivity.
  destruct (config g) as [[[p|] e]|]; cbn [prolog prolog_of option_lines];
    try reflexivity.
  destruct (Py.truthy p); [|reflexivity].
  rewrite !indent_emit, emit_emit; reflexivity.
Qed.

Lemma footer_frame (g : PUML_Generator) :
  footer g
  = Ok (moved (close_lines (depth g) (depth g)
               ++ option_lines 0 (epilog_of (config g))
               ++ [mk_out_line 0 ["@enduml"]]) [] g).
Proof.
  unfold footer; rewrite close_namespaces_ok; cbn [bind].
  set (g1 := moved (close_lines (depth g) (depth g)) [] g).
  replace (config g1) with (config g) by reflexivity.
  destruct (config g) as [[p [e|]]|]; cbn [epilog epilog_of option_lines].
  - destruct (Py.truthy e); unfold g1, moved, indent, depth; cbn;
      rewrite <- !app_assoc; reflexivity.
  - unfold g1, moved, indent, depth; cbn; rewrite <- !app_assoc; reflexivity.
  - unfold g1, moved, indent, depth; cbn; rewrite <- !app_assoc; reflexivity.
Qed.

(** [g'] is [g] with more lines written, under the same configuration and
    root. *)
Definition grown (g g' : PUML_Generator) : Prop :=
(exists ls, dest g' = dest g ++ ls)
/\ config g' = config g /\ root g' = root g.

Lemma grown_refl (g : PUML_Generator) : grown g g.
Proof. split; [exists []; symmetry; apply app_nil_r | split; reflexivity]. Qed.

Lemma grown_trans (g1 g2 g3 : PUML_Generator) :
  grown g1 g2 -> grown g2 g3 -> grown g1 g3.
Proof.
  intros [[l1 H1] [Hc1 Hr1]] [[l2 H2] [Hc2 Hr2]].
  split; [exists (l1 ++ l2); rewrite H2, H1, app_assoc; reflexivity|].
  split; congruence.
Qed.

Lemma grown_start_file (cwd src : string) (g g' : PUML_Generator) :
  start_file cwd src g = Ok g' -> grown g g'.
Proof.
  intro Hs; destruct (start_file_cases _ _ _ Hs) as [[_ ->]|H].
  - split; [exists []; symmetry; apply app_nil_r | split; reflexivity].
  - destruct H as (r & target & _ & _ & ->).
    split; [eexists; reflexivity | split; reflexivity].
Qed.

Lemma grown_visit (n : node) (v : TreeVisitor PUML_Generator) :
  grown (context v) (context (visit n v)).
Proof.
  rewrite visit_emit; split; [eexists; reflexivity | split; reflexivity].
Qed.

Section Frame.
Variable cwd : string.
Variable read_file : string -> result string.
Variable ast_parse : string -> result node.

Lemma process_file_inv (P : PUML_Generator -> Prop)
      (v v' : TreeVisitor PUML_Generator) (srcfile : string) :
  (forall g g', start_file cwd srcfile g = Ok g' -> P g -> P g') ->
  (forall n w, P (context w) -> P (context (visit n w))) ->
  (forall g, P g -> P (end_file g)) ->
  process_file cwd read_file ast_parse v srcfile = Ok v' ->
  P (context v) -> P (context v').
Proof.
  intros Hstart Hvisit Hend H HP; unfold process_file in H.
  destruct (start_file cwd srcfile (context v)) as [g|e] eqn:Hs;
    [|discriminate H].
  cbn [bind] in H.
  destruct (read_file srcfile) as [src|e]; [|discriminate H].
  cbn [bind] in H.
  destruct (ast_parse src) as [tree|e]; [|discriminate H].
  cbn [bind] in H. injection H as <-. cbn [set_context context].
  apply Hend, (Hvisit tree (set_context g v)), (Hstart _ _ Hs), HP.
Qed.

Lemma process_files_inv (P : PUML_Generator -> Prop) (py_file : list string) :
  (forall src g g', start_file cwd src g = Ok g' -> P g -> P g') ->
  (forall n w, P (context w) -> P (context (visit n w))) ->
  (forall g, P g -> P (end_file g)) ->
  forall v v' : TreeVisitor PUML_Generator,
    process_files cwd read_file ast_parse v py_file = Ok v' ->
    P (context v) -> P (context v').
Proof.
  intros Hstart Hvisit Hend.
  induction py_file as [|srcfile rest IH]; intros v v' H HP;
    cbn [process_files] in H.
  - injection H as <-; exact HP.
  - destruct (process_file cwd read_file ast_parse v srcfile) as [v1|e] eqn:E;
      [|discriminate H].
    cbn [bind] in H. apply (IH v1 v' H).
    exact (process_file_inv P v srcfile (Hstart srcfile) Hvisit Hend E HP).
Qed.

Lemma process_files_grown (py_file : list string)
      (v v' : TreeVisitor PUML_Generator) :
  process_files cwd read_file ast_parse v py_file = Ok v' ->
  grown (context v) (context v').
Proof.
  intro H.
  apply (process_files_inv (grown (context v)) py_file) with (v := v);
    try exact H; try apply grown_refl.
  - intros src g g' Hs Hg.
    exact (grown_trans Hg (grown_start_file _ _ _ Hs)).
  - intros n w Hg. exact (grown_trans Hg (grown_visit n w)).
  - intros g Hg; exact Hg.
Qed.

End Frame.

(** X8.  The output of every run that gets to its end is framed: first the
    line [@startuml], then the prolog of the configuration if it has a
    non-empty one, last the epilog if it has a non-empty one and the line
    [@enduml]; the four are written at depth 0, and an empty prolog or epilog
    is passed over like a missing one. *)
Theorem X8_document_frame
        (cwd : string) (read_file : string -> result string)
        (ast_parse : string -> result node)
        (root_arg : option string) (cfg : Config) (py_file : list string)
        (g : PUML_Generator) :
  run cwd read_file ast_parse root_arg cfg py_file = Ok g ->
  exists middle,
    dest g = mk_out_line 0 ["@startuml"]
             :: option_lines 0 (prolog cfg)
             ++ middle
             ++ option_lines 0 (epilog cfg)
             ++ [mk_out_line 0 ["@enduml"]]
    /\ option_lines 0 (Some "") = [].
Proof.
  unfold run; intro H.
  set (v0 := set_context _ _) in H.
  destruct (process_files cwd read_file ast_parse v0 py_file) as [v1|e] eqn:E;
    [|discriminate H].
  cbn [bind] in H.
  destruct (process_files_grown _ _ _ _ _ E) as [[ls Hls] [Hcfg _]].
  rewrite footer_frame in H; injection H as <-.
  cbn [moved dest]. rewrite Hcfg, Hls.
  unfold v0; cbn [set_context context new_TreeVisitor].
  rewrite header_frame; cbn [emit dest config new_PUML_Generator depth
                               namespaces List.length prolog_of epilog_of app].
  exists (ls ++ close_lines (depth (context v1)) (depth (context v1))).
  split; [|reflexivity].
  rewrite <- !app_assoc; reflexivity.
Qed.

Lemma X8_document_frame_witness :
  exists g middle,
    run "/" (fun _ => Ok "") (fun _ => Ok dog_module) None
        (mk_Config (Some "skinparam monochrome true") (Some "")) ["zoo.py"]
    = Ok g
    /\ dest g = mk_out_line 0 ["@startuml"]
                :: [mk_out_line 0 ["skinparam monochrome true" +++ Py.LF]]
                ++ middle ++ [] ++ [mk_out_line 0 ["@enduml"]].
Proof.
  eexists.
  assert (H : run "/" (fun _ => Ok "") (fun _ => Ok dog_module) None
                  (mk_Config (Some "skinparam monochrome true") (Some ""))
                  ["zoo.py"] = Ok _) by (vm_compute; reflexivity).
  destruct (X8_document_frame _ _ _ _ _ _ H) as [middle [Hm _]].
  exists middle; split; [exact H | exact Hm].
Defined.

(** ** Indentation *)

(** Lines at depth [d] that are no marker. *)
Definition plain_at (d : nat) (ls : list out_line) : Prop :=
Forall (fun l => is_open l = false /\ is_close l = false /\ ol_depth l = d) ls.

Lemma plain_at_app (d : nat) (l1 l2 : list out_line) :
  plain_at d l1 -> plain_at d l2 -> plain_at d (l1 ++ l2).
Proof. intros H1 H2; apply Forall_app; split; assumption. Qed.

Lemma plain_at_map {A : Type} (d : nat) (f : A -> out_line) (l : list A) :
  (forall x, is_open (f x) = false /\ is_close (f x) = false
             /\ ol_depth (f x) = d) ->
  plain_at d (map f l).
Proof.
  intro H; apply Forall_forall; intros y Hy.
  apply in_map_iff in Hy; destruct Hy as [x [<- _]]; apply H.
Qed.

Lemma plain_at_class_lines (d : nat) (ci : ClassInfo) :
  plain_at d (class_lines d ci).
Proof.
  unfold class_lines, class_block, inheritance_lines.
  apply plain_at_app; [apply plain_at_map; intro; repeat split|].
  constructor; [repeat split|].
  repeat apply plain_at_app; try (apply plain_at_map; intro; repeat split).
  constructor; [repeat split | constructor].
Qed.

Lemma plain_at_flat_map {A : Type} (d : nat) (f : A -> list out_line)
      (l : list A) :
  (forall x, plain_at d (f x)) -> plain_at d (flat_map f l).
Proof.
  intro H; induction l as [|x l IH]; cbn [flat_map];
    [constructor | apply plain_at_app; [apply H | exact IH]].
Qed.

Lemma plain_at_option_lines (d : nat) (o : option string) :
  plain_at d (option_lines d o).
Proof.
  destruct o as [t|]; cbn [option_lines]; [|constructor].
  destruct (Py.truthy t); [|constructor].
  pose proof (plain_text d t) as H; inversion H as [|? ? [Ho Hc] _]; subst.
  constructor; [repeat split; assumption | constructor].
Qed.

Lemma plain_at_plain (d : nat) (ls : list out_line) : plain_at d ls -> plain ls.
Proof.
  apply Forall_impl; intros l (Ho & Hc & _); split; assumption.
Qed.

(** Reading [ls] with [k] namespaces open at the start: every line must be
    written at the depth of the namespaces open where it stands, a closing
    line at the depth its namespace was opened at.  The result is the number
    of namespaces open at the end, or [None] if a line is out of place. *)
Fixpoint levels (ls : list out_line) (k : nat) : option nat :=
match ls with
| [] => Some k
| l :: ls' =>
    if is_open l then
      if ol_depth l =? k then levels ls' (S k) else None
    else if is_close l then
      match k with
      | 0 => None
      | S k' => if ol_depth l =? k' then levels ls' k' else None
      end
    else if ol_depth l =? k then levels ls' k else None
end.

Lemma levels_app (l1 l2 : list out_line) (k : nat) :
  levels (l1 ++ l2) k
  = match levels l1 k with
    | Some j => levels l2 j
    | None => None
    end.
Proof.
  revert k; induction l1 as [|l l1 IH]; intro k; cbn [levels app];
    [reflexivity|].
  destruct (is_open l); [destruct (ol_depth l =? k); [apply IH|reflexivity]|].
  destruct (is_close l).
  - destruct k as [|k]; [reflexivity|].
    destruct (ol_depth l =? k); [apply IH|reflexivity].
  - destruct (ol_depth l =? k); [apply IH|reflexivity].
Qed.

Lemma levels_plain_at (k : nat) (ls : list out_line) :
  plain_at k ls -> levels ls k = Some k.
Proof.
  induction 1 as [|l ls (Ho & Hc & Hd) _ IH]; cbn [levels]; [reflexivity|].
  rewrite Ho, Hc, Hd, Nat.eqb_refl; exact IH.
Qed.

Lemma levels_close_lines (count j : nat) :
  levels (close_lines (count + j) count) (count + j) = Some j.
Proof.
  induction count as [|k IH]; [reflexivity|].
  cbn [close_lines levels Nat.add].
  replace (is_open (mk_out_line (S (k + j) - 1) ["}"])) with false
    by reflexivity.
  replace (is_close (mk_out_line (S (k + j) - 1) ["}"])) with true
    by reflexivity.
  cbn [ol_depth]. replace (S (k + j) - 1) with (k + j) by lia.
  rewrite Nat.eqb_refl; exact IH.
Qed.

Lemma levels_open_lines (d : nat) (names : list string) :
  levels (open_lines d names) d = Some (d + List.length names).
Proof.
  revert d; induction names as [|x names IH]; intro d;
    cbn [open_lines levels List.length].
  - f_equal; lia.
  - rewrite is_open_namespace; cbn [ol_depth]; rewrite Nat.eqb_refl, IH.
    f_equal; lia.
Qed.

(** Every line written so far stands at the depth of the namespaces open
    around it, and the namespaces of the stack are the ones left open. *)
Definition levelled (g : PUML_Generator) : Prop :=
levels (dest g) 0 = Some (depth g).

Lemma levelled_emit (ls : list out_line) (g : PUML_Generator) :
  plain_at (depth g) ls -> levelled g -> levelled (emit ls g).
Proof.
  unfold levelled; intros Hp Hl; cbn [emit dest].
  rewrite levels_app, Hl; apply levels_plain_at, Hp.
Qed.

Lemma levelled_visit (n : node) (v : TreeVisitor PUML_Generator) :
  levelled (context v) -> levelled (context (visit n v)).
Proof.
  intro H; rewrite visit_emit; apply levelled_emit; [|exact H].
  apply plain_at_flat_map; intro; apply plain_at_class_lines.
Qed.

Lemma levelled_start_file (cwd src : string) (g g' : PUML_Generator) :
  start_file cwd src g = Ok g' -> levelled g -> levelled g'.
Proof.
  intros Hs Hl; destruct (start_file_cases _ _ _ Hs) as [[_ ->]|H];
    [exact Hl|].
  destruct H as (r & target & _ & _ & ->).
  set (n := common_prefix_length (namespaces g) target).
  destruct (commonprefix_len_le (namespaces g) target) as [H1 H2].
  fold (common_prefix_length (namespaces g) target) in H1, H2.
  fold n in H1, H2; fold (depth g) in H1.
  unfold levelled in *; cbn [moved dest set_sourcename].
  pose proof (levels_close_lines (depth g - n) n) as Hc.
  replace (depth g - n + n) with (depth g) in Hc by lia.
  rewrite levels_app, Hl, levels_app, Hc, levels_open_lines.
  rewrite length_skipn. unfold depth at 1; cbn [moved namespaces].
  f_equal; lia.
Qed.

(** X10.  In the output of every run that gets to its end, each line is
    indented by the number of namespaces open at the place it stands: an
    opening line by the namespaces around it, a closing line like the
    opening line it answers, every other line (class blocks, inheritance
    lines, prolog, epilog and the two document markers) by the namespaces it
    lies in; and no namespace is left open. *)
Theorem X10_indentation_is_nesting
        (cwd : string) (read_file : string -> result string)
        (ast_parse : string -> result node)
        (root_arg : option string) (cfg : Config) (py_file : list string)
        (g : PUML_Generator) :
  run cwd read_file ast_parse root_arg cfg py_file = Ok g ->
  levels (dest g) 0 = Some 0.
Proof.
  unfold run; intro H.
  set (v0 := set_context _ _) in H.
  assert (H0 : levelled (context v0)).
  { unfold v0; cbn [set_context context new_TreeVisitor].
    rewrite header_frame. apply levelled_emit; [|reflexivity].
    constructor; [repeat split | apply plain_at_option_lines]. }
  destruct (process_files cwd read_file ast_parse v0 py_file) as [v1|e] eqn:E;
    [|discriminate H].
  cbn [bind] in H.
  assert (H1 : levelled (context v1)).
  { apply (process_files_inv cwd read_file ast_parse levelled py_file)
      with (v := v0); try assumption.
    - intros src g0 g' Hs; exact (@levelled_start_file cwd src g0 g' Hs).
    - intros n w; apply levelled_visit.
    - intros g0 Hg; exact Hg. }
  rewrite footer_frame in H; injection H as <-.
  unfold levelled in H1; cbn [moved dest].
  pose proof (levels_close_lines (depth (context v1)) 0) as Hc.
  rewrite Nat.add_0_r in Hc.
  rewrite levels_app, H1, levels_app, Hc.
  apply levels_plain_at, plain_at_app; [apply plain_at_option_lines|].
  constructor; [repeat split | constructor].
Qed.

Lemma X10_indentation_is_nesting_witness :
  exists g,
    run "/" (fun _ => Ok "") (fun _ => Ok dog_module) (Some "a")
        (mk_Config None None) ["a/b/X.py"; "a/c/Y.py"] = Ok g
    /\ levels (dest g) 0 = Some 0.
Proof.
  eexists.
  assert (H : run "/" (fun _ => Ok "") (fun _ => Ok dog_module) (Some "a")
                  (mk_Config None None) ["a/b/X.py"; "a/c/Y.py"] = Ok _)
    by (vm_compute; reflexivity).
  split; [exact H | exact (X10_indentation_is_nesting _ _ _ _ _ _ H)].
Defined.

(** ** Runs without a root directory *)

(** X6.  Without a root directory ([None] or the empty string) starting a
    file never raises and touches neither the stack nor the output, and the
    output of a run that gets to its end holds no namespace marker and has
    every line at depth 0. *)
Theorem X6_no_root_no_namespaces
        (cwd : string) (read_file : string -> result string)
        (ast_parse : string -> result node)
        (root_arg : option string) (cfg : Config) (py_file : list string)
        (g : PUML_Generator) :
  root_arg = None \/ root_arg = Some "" ->
  run cwd read_file ast_parse root_arg cfg py_file = Ok g ->
  plain_at 0 (dest g)
  /\ count_open (dest g) = 0 /\ count_close (dest g) = 0
  /\ namespaces g = []
  /\ (forall src g0, root g0 = root_arg ->
        start_file cwd src g0 = Ok (set_sourcename (Some src) g0)).
Proof.
  intros Hroot H.
  assert (Hnone : forall g0, root g0 = root_arg -> root_dir g0 = None).
  { intros g0 Hg0; unfold root_dir; rewrite Hg0.
    destruct Hroot as [->| ->]; reflexivity. }
  set (P := fun g0 : PUML_Generator =>
              root g0 = root_arg /\ namespaces g0 = []
              /\ plain_at 0 (dest g0)).
  unfold run in H. set (v0 := set_context _ _) in H.
  assert (H0 : P (context v0)).
  { unfold v0, P; cbn [set_context context new_TreeVisitor].
    rewrite header_frame. repeat split.
    constructor; [repeat split | apply plain_at_option_lines]. }
  destruct (process_files cwd read_file ast_parse v0 py_file) as [v1|e] eqn:E;
    [|discriminate H].
  cbn [bind] in H.
  assert (H1 : P (context v1)).
  { apply (process_files_inv cwd read_file ast_parse P py_file) with (v := v0);
      try assumption.
    - intros src g0 g' Hs (Hr & Hn & Hp).
      rewrite (start_file_no_root cwd src g0 (Hnone g0 Hr)) in Hs.
      injection Hs as <-. repeat split; assumption.
    - intros n w (Hr & Hn & Hp). rewrite visit_emit.
      repeat split; try assumption. cbn [emit dest].
      apply plain_at_app; [exact Hp|].
      apply plain_at_flat_map; intro ci.
      unfold depth; rewrite Hn. apply plain_at_class_lines.
    - intros g0 Hg; exact Hg. }
  destruct H1 as (Hr & Hn & Hp).
  rewrite footer_frame in H; injection H as <-.
  assert (Hall : plain_at 0
                   (dest (context v1)
                    ++ close_lines (depth (context v1)) (depth (context v1))
                    ++ option_lines 0 (epilog_of (config (context v1)))
                    ++ [mk_out_line 0 ["@enduml"]])).
  { unfold depth; rewrite Hn; cbn [List.length close_lines app].
    apply plain_at_app; [exact Hp|].
    apply plain_at_app; [apply plain_at_option_lines|].
    constructor; [repeat split | constructor]. }
  cbn [moved dest namespaces].
  destruct (count_plain (plain_at_plain Hall)) as [Ho Hc].
  repeat split; try assumption.
  intros src g0 Hg0; apply start_file_no_root, Hnone, Hg0.
Qed.

Lemma X6_no_root_no_namespaces_witness :
  exists g,
    run "/" (fun _ => Ok "") (fun _ => Ok dog_module) (Some "")
        (mk_Config None None) ["a/b/X.py"; ""] = Ok g
    /\ count_open (dest g) = 0
    /\ namespaces g = [].
Proof.
  eexists.
  assert (H : run "/" (fun _ => Ok "") (fun _ => Ok dog_module) (Some "")
                  (mk_Config None None) ["a/b/X.py"; ""] = Ok _)
    by (vm_compute; reflexivity).
  destruct (@X6_no_root_no_namespaces _ _ _ _ _ _ _ (or_intror eq_refl) H)
    as (_ & Ho & _ & Hn & _).
  split; [exact H|]. split; assumption.
Defined.

(** ** Stopping at the first failure *)

Section FailFast.
Variable cwd : string.
Variable read_file : string -> result string.
Variable ast_parse : string -> result node.

Lemma process_files_app (l1 l2 : list string)
      (v : TreeVisitor PUML_Generator) :
  process_files cwd read_file ast_parse v (l1 ++ l2)
  = (v1 <- process_files cwd read_file ast_parse v l1 ;;
     process_files cwd read_file ast_parse v1 l2).
Proof.
  revert v; induction l1 as [|x l1 IH]; intro v; cbn [app process_files];
    [reflexivity|].
  destruct (process_file cwd read_file ast_parse v x); cbn [bind];
    [apply IH | reflexivity].
Qed.

(** The file cannot be read, or its text cannot be parsed. *)
Definition fails_with (e : exn) (srcfile : string) : Prop :=
read_file srcfile = Raise e
\/ exists src, read_file srcfile = Ok src /\ ast_parse src = Raise e.

Lemma process_file_fails (e : exn) (srcfile : string)
      (v : TreeVisitor PUML_Generator) :
  srcfile <> "" -> fails_with e srcfile ->
  process_file cwd read_file ast_parse v srcfile = Raise e.
Proof.
  intros Hne Hf; unfold process_file.
  assert (Ht : Py.truthy srcfile = true)
    by (destruct srcfile; [congruence | reflexivity]).
  destruct (start_file_total cwd srcfile (context v) Ht) as [g Hg].
  rewrite Hg; cbn [bind].
  destruct Hf as [Hr|(src & Hr & Hp)]; rewrite Hr; cbn [bind];
    [|rewrite Hp]; reflexivity.
Qed.

End FailFast.

(** X15.  The files are taken in the order given and the run stops at the
    first one that cannot be read or parsed: its exception ends the run
    whatever files come after it, and unless it is a [SyntaxError] it leaves
    the program uncaught, the footer not written. *)
Theorem X15_stops_at_first_failure
        (cwd : string) (read_file : string -> result string)
        (ast_parse : string -> result node)
        (root_arg : option string) (cfg : Config)
        (before after : list string) (bad : string) (e : exn) :
  Forall (parsable read_file ast_parse) before ->
  bad <> "" ->
  fails_with read_file ast_parse e bad ->
  run cwd read_file ast_parse root_arg cfg (before ++ bad :: after) = Raise e
  /\ ((forall lineno offset text, e <> SyntaxError lineno offset text) ->
      uncaught (main cwd read_file ast_parse root_arg cfg
                     (before ++ bad :: after)) = Some e
      /\ written (main cwd read_file ast_parse root_arg cfg
                      (before ++ bad :: after)) = None).
Proof.
  intros Hbefore Hne Hf.
  assert (Hrun : run cwd read_file ast_parse root_arg cfg
                     (before ++ bad :: after) = Raise e).
  { unfold run. rewrite process_files_app.
    destruct (process_files_total cwd Hbefore
                (set_context
                   (header (context (new_TreeVisitor
                                       (new_PUML_Generator root_arg (Some cfg)))))
                   (new_TreeVisitor (new_PUML_Generator root_arg (Some cfg)))))
      as [v1 Hv1].
    rewrite Hv1; cbn [bind process_files].
    rewrite (@process_file_fails cwd read_file ast_parse e bad v1 Hne Hf).
    reflexivity. }
  split; [exact Hrun|].
  intro Hns; unfold main; rewrite Hrun.
  destruct e; try (split; reflexivity). exfalso; exact (Hns _ _ _ eq_refl).
Qed.

(** A file system with the one readable file [zoo.py]. *)
Definition only_zoo (srcfile : string) : result string :=
if String.eqb srcfile "zoo.py" then Ok "" else Raise (OSError srcfile).

Lemma X15_stops_at_first_failure_witness :
  run "/" only_zoo (fun _ => Ok dog_module) None (mk_Config None None)
      (["zoo.py"] ++ "gone.py" :: ["zoo.py"])
  = Raise (OSError "gone.py")
  /\ uncaught (main "/" only_zoo (fun _ => Ok dog_module) None
                    (mk_Config None None)
                    (["zoo.py"] ++ "gone.py" :: ["zoo.py"]))
     = Some (OSError "gone.py")
  /\ written (main "/" only_zoo (fun _ => Ok dog_module) None
                   (mk_Config None None)
                   (["zoo.py"] ++ "gone.py" :: ["zoo.py"]))
     = None.
Proof.
  destruct (@X15_stops_at_first_failure
              "/" only_zoo (fun _ => Ok dog_module) None (mk_Config None None)
              ["zoo.py"] ["zoo.py"] "gone.py" (OSError "gone.py"))
    as [H1 H2].
  - repeat constructor. exists "", dog_module; split; reflexivity.
  - discriminate.
  - left; reflexivity.
  - split; [exact H1 | apply H2; discriminate].
Defined.

(** ** What the visitor passes over *)

(** No class definition outside the bodies of [def] function definitions
    ([FunctionDef] nodes).  The body of an [async def], a node kind without
    a handler, counts like that of any other compound statement. *)
Fixpoint class_free (n : node) : bool :=
match n with
| ClassDef _ _ _ => false
| FunctionDef _ _ _ => true
| Assign _ => true
| Other children => forallb class_free children
end.

Section Outside.
Context {C : Type} {print : Context C}.

Lemma visit_outside_class (n : node) :
  forall v : TreeVisitor C,
    classinfo v = None -> classinfo (visit n v) = None.
Proof.
  induction n as [name bs body IH|name a body IH|targets|children IH]
    using node_forall_ind; intros v Hv.
  - rewrite visit_ClassDef; exact Hv.
  - rewrite visit_FunctionDef_outside; assumption.
  - rewrite visit_Assign_eq; unfold visit_Assign.
    destruct (constructor v); [|rewrite Hv; exact Hv].
    apply (fold_left_invariant (fun s => classinfo s = None)); [|exact Hv].
    apply Forall_forall; intros t _ s Hs; unfold visit_member_target.
    destruct t as [?|[id| | |] attr|?|?]; try assumption.
    destruct (String.eqb id "self"); [|assumption].
    unfold on_classinfo; rewrite Hs; exact Hs.
  - rewrite visit_Other.
    apply (fold_left_invariant (fun s => classinfo s = None)
                               (fun s c => visit c s) IH).
    exact Hv.
Qed.

Lemma visit_class_free (n : node) :
  class_free n = true ->
  forall v : TreeVisitor C,
    classinfo v = None -> constructor v = false -> visit n v = v.
Proof.
  induction n as [name bs body IH|name a body IH|targets|children IH]
    using node_forall_ind; intros Hf v Hv Hoff.
  - discriminate Hf.
  - apply visit_FunctionDef_outside, Hv.
  - rewrite visit_Assign_eq; unfold visit_Assign; rewrite Hoff, Hv.
    reflexivity.
  - rewrite visit_Other. cbn [class_free] in Hf; rewrite forallb_forall in Hf.
    induction children as [|c children IHc]; [reflexivity|].
    rewrite visit_each_cons. inversion IH as [|? ? Hc Hrest]; subst.
    rewrite (Hc (Hf c (or_introl eq_refl)) v Hv Hoff).
    apply (IHc Hrest). intros x Hx; apply Hf; right; exact Hx.
Qed.

End Outside.

(** Module-level code without a class: an assignment, a function holding a
    class, and a conditional wrapping an assignment. *)
Definition script_module : node :=
Other
  [Assign [Name "VERSION"];
   FunctionDef "__init__" self_only
     [ClassDef "Local" [] []; Assign [Attribute (Name "self") "x"]];
   Other [Assign [Name "DEBUG"]]].

(** X11.  A tree with no class definition outside the bodies of [def]
    function definitions ([FunctionDef] nodes; the body of an [async def]
    does not count as a function body here, it is traversed) leaves a
    visitor that is outside any class exactly as it was: module-level
    assignments and [def] functions, whatever their names and bodies, are
    passed over, nothing is reported and the generator writes nothing. *)
Theorem X11_no_class_no_effect
        (n : node) (v : TreeVisitor PUML_Generator) :
  class_free n = true ->
  classinfo v = None -> constructor v = false ->
  visit n v = v
  /\ reported n v = []
  /\ dest (context (visit n v)) = dest (context v).
Proof.
  intros Hf Hv Hoff.
  assert (H : visit n v = v) by (apply visit_class_free; assumption).
  split; [exact H|]. split; [|rewrite H; reflexivity].
  unfold reported. rewrite visit_class_free; try assumption; reflexivity.
Qed.

Lemma X11_no_class_no_effect_witness :
  visit script_module (new_TreeVisitor (new_PUML_Generator None None))
  = new_TreeVisitor (new_PUML_Generator None None).
Proof.
  exact (proj1 (@X11_no_class_no_effect script_module
                  (new_TreeVisitor (new_PUML_Generator None None))
                  eq_refl eq_refl eq_refl)).
Defined.

(** X12.  A visitor that starts outside any class with constructor mode off
    is outside any class with constructor mode off again after any tree, and
    so at the start of every file of a run: nothing extracted from one file
    is carried into the next. *)
Theorem X12_visitor_state_does_not_leak
        (cwd : string) (read_file : string -> result string)
        (ast_parse : string -> result node) :
  (forall (n : node) (v : TreeVisitor PUML_Generator),
      classinfo v = None -> constructor v = false ->
      classinfo (visit n v) = None /\ constructor (visit n v) = false)
  /\ (forall (py_file : list string) (v v' : TreeVisitor PUML_Generator),
         classinfo v = None -> constructor v = false ->
         process_files cwd read_file ast_parse v py_file = Ok v' ->
         classinfo v' = None /\ constructor v' = false).
Proof.
  assert (Hone : forall (n : node) (v : TreeVisitor PUML_Generator),
             classinfo v = None -> constructor v = false ->
             classinfo (visit n v) = None /\ constructor (visit n v) = false).
  { intros n v Hv Hoff; split;
      [apply visit_outside_class, Hv | apply visit_constructor_off, Hoff]. }
  split; [exact Hone|].
  induction py_file as [|srcfile rest IH]; intros v v' Hv Hoff H;
    cbn [process_files] in H.
  - injection H as <-; split; assumption.
  - destruct (process_file cwd read_file ast_parse v srcfile) as [v1|e] eqn:E;
      [|discriminate H].
    cbn [bind] in H. unfold process_file in E.
    destruct (start_file cwd srcfile (context v)) as [g|e]; [|discriminate E].
    cbn [bind] in E.
    destruct (read_file srcfile) as [src|e]; [|discriminate E].
    cbn [bind] in E.
    destruct (ast_parse src) as [tree|e]; [|discriminate E].
    cbn [bind] in E. injection E as <-.
    destruct (Hone tree (set_context g v) Hv Hoff) as [H1 H2].
    refine (IH _ v' _ _ H); [exact H1 | exact H2].
Qed.

Lemma X12_visitor_state_does_not_leak_witness :
  classinfo (visit nested_init_class
                   (new_TreeVisitor (new_PUML_Generator None None))) = None
  /\ constructor (visit nested_init_class
                        (new_TreeVisitor (new_PUML_Generator None None)))
     = false.
Proof.
  exact (proj1 (X12_visitor_state_does_not_leak "/" (fun _ => Ok "")
                  (fun _ => Ok nested_init_class))
               nested_init_class
               (new_TreeVisitor (new_PUML_Generator None None))
               eq_refl eq_refl).
Defined.

(** ** What an assignment and a constructor register *)

(** The plain names among the targets of an assignment. *)
Definition plain_names (targets : list expr) : list string :=
flat_map (fun t => match t with Name id => [id] | _ => [] end) targets.

(** The function definitions a statement of a constructor body registers as
    methods of the class: those met before any class or function body. *)
Fixpoint nested_defs (n : node) : list method :=
match n with
| FunctionDef name a _ => [mk_method name a]
| Other children => flat_map nested_defs children
| ClassDef _ _ _ => []
| Assign _ => []
end.

Definition with_members (m : list string) (ci : ClassInfo) : ClassInfo :=
mk_ClassInfo (classname ci) (bases ci) (classvars ci) m (methods ci).

Lemma add_member_with_members (x : string) (ci : ClassInfo) :
  add_member x ci = with_members (register (members ci) x) ci.
Proof.
  unfold add_member, register, with_members.
  destruct (mem x (members ci)); destruct ci; reflexivity.
Qed.

Section Registering.
Context {C : Type} {print : Context C}.

Lemma member_targets_record (targets : list expr) :
  forall (v : TreeVisitor C) (ci : ClassInfo),
    classinfo v = Some ci ->
    classinfo (fold_left (fun v t => visit_member_target t v) targets v)
    = Some (with_members
              (fold_left register (flat_map self_attr targets) (members ci))
              ci).
Proof.
  induction targets as [|t targets IH]; intros v ci Hci;
    cbn [fold_left flat_map].
  - rewrite Hci; unfold with_members; destruct ci; reflexivity.
  - rewrite fold_left_app.
    assert (H : classinfo (visit_member_target t v)
                = Some (with_members
                          (fold_left register (self_attr t) (members ci)) ci)).
    { unfold visit_member_target, self_attr.
      destruct t as [?|[id| | |] attr|?|?];
        try (rewrite Hci; unfold with_members; destruct ci; reflexivity).
      destruct (String.eqb id "self");
        [|rewrite Hci; unfold with_members; destruct ci; reflexivity].
      unfold on_classinfo; rewrite Hci; cbn [set_classinfo classinfo fold_left].
      rewrite add_member_with_members; reflexivity. }
    rewrite (IH _ _ H). reflexivity.
Qed.

Lemma classvar_targets_record (targets : list expr) :
  forall (v : TreeVisitor C) (ci : ClassInfo),
    classinfo v = Some ci ->
    classinfo (fold_left (fun v t => visit_classvar_target t v) targets v)
    = Some (mk_ClassInfo (classname ci) (bases ci)
                         (classvars ci ++ plain_names targets)
                         (members ci) (methods ci)).
Proof.
  induction targets as [|t targets IH]; intros v ci Hci;
    cbn [fold_left plain_names flat_map].
  - rewrite Hci, app_nil_r; destruct ci; reflexivity.
  - fold (plain_names targets).
    destruct t as [id|value attr|elts|src]; cbn [visit_classvar_target app];
      try (apply IH; exact Hci).
    rewrite (IH (on_classinfo (add_classvar id) v) (add_classvar id ci)).
    + cbn [add_classvar classname bases classvars members methods].
      rewrite <- app_assoc; reflexivity.
    + unfold on_classinfo; rewrite Hci; reflexivity.
Qed.

(** In constructor mode inside a class, a statement below which no
    constructor is visited registers its self-attributes as members and its
    function definitions as methods, and nothing else. *)
Lemma visit_in_constructor_record (n : node) :
  stays_on n = true ->
  forall (v : TreeVisitor C) (ci : ClassInfo),
    classinfo v = Some ci -> constructor v = true ->
    classinfo (visit n v)
    = Some (mk_ClassInfo (classname ci) (bases ci) (classvars ci)
                         (fold_left register (self_attrs n) (members ci))
                         (methods ci ++ nested_defs n))
    /\ constructor (visit n v) = true.
Proof.
  induction n as [name bs body IH|name a body IH|targets|children IH]
    using node_forall_ind; intros Hs v ci Hci Hon.
  - destruct (visit_in_constructor (ClassDef name bs body) Hs v Hci Hon)
      as (_ & _ & H2 & _).
    split; [|exact H2].
    rewrite visit_ClassDef; cbn [set_classinfo classinfo self_attrs
                                   nested_defs fold_left].
    rewrite Hci, app_nil_r; destruct ci; reflexivity.
  - cbn [stays_on] in Hs; apply negb_true_iff, String.eqb_neq in Hs.
    rewrite visit_FunctionDef_method by congruence.
    rewrite constructor_on_classinfo. unfold on_classinfo; rewrite Hci.
    split; [reflexivity | exact Hon].
  - rewrite visit_Assign_eq, constructor_visit_Assign.
    unfold visit_Assign; rewrite Hon.
    rewrite (member_targets_record targets v Hci).
    cbn [self_attrs nested_defs]; rewrite app_nil_r.
    split; reflexivity.
  - rewrite visit_Other. cbn [stays_on self_attrs nested_defs] in *.
    rewrite forallb_forall in Hs.
    revert v ci Hci Hon; induction children as [|c children IHc];
      intros v ci Hci Hon.
    + cbn [visit_each fold_left flat_map]. rewrite Hci, app_nil_r.
      split; [destruct ci; reflexivity | exact Hon].
    + rewrite visit_each_cons; cbn [flat_map]; rewrite fold_left_app.
      inversion IH as [|? ? Hc Hrest]; subst.
      destruct (Hc (Hs c (or_introl eq_refl)) v ci Hci Hon) as [H1 H2].
      destruct (IHc Hrest (fun x Hx => Hs x (or_intror Hx)) _ _ H1 H2)
        as [H3 H4].
      split; [|exact H4]. rewrite H3.
      cbn [classname bases classvars members methods].
      rewrite <- app_assoc; reflexivity.
Qed.

End Registering.

(** X13.  What one assignment statement does to the open record.  With
    constructor mode off it appends the plain-name targets to the class
    variables, in order and with repetitions, and passes over any other
    target; with constructor mode on it registers the targets of the shape
    [self.attr], each unless already a member, and passes over plain names.
    In both cases members respectively class variables, the methods, the
    mode and the context are as before. *)
Theorem X13_assignment_targets
        {C : Type} {print : Context C}
        (targets : list expr) (v : TreeVisitor C) (ci : ClassInfo) :
  classinfo v = Some ci ->
  classinfo (visit (Assign targets) v)
  = Some (if constructor v
          then mk_ClassInfo (classname ci) (bases ci) (classvars ci)
                 (members ci
                  ++ first_seen (members ci) (flat_map self_attr targets))
                 (methods ci)
          else mk_ClassInfo (classname ci) (bases ci)
                 (classvars ci ++ plain_names targets)
                 (members ci) (methods ci))
  /\ constructor (visit (Assign targets) v) = constructor v
  /\ context (visit (Assign targets) v) = context v.
Proof.
  intro Hci. rewrite visit_Assign_eq.
  split; [|split; [apply constructor_visit_Assign
                  |apply context_visit_Assign]].
  unfold visit_Assign. destruct (constructor v).
  - rewrite (member_targets_record targets v Hci), register_all.
    reflexivity.
  - rewrite Hci. apply classvar_targets_record, Hci.
Qed.

Lemma X13_assignment_targets_witness :
  classinfo (visit (Assign [Name "a"; Attribute (Name "self") "b";
                            Tuple [Name "c"; Name "d"]; Name "a"])
                   (inside_Dog false))
  = Some (mk_ClassInfo "Dog" [] ["a"; "a"] [] [])
  /\ classinfo (visit (Assign [Name "a"; Attribute (Name "self") "b";
                               Attribute (Name "other") "c";
                               Attribute (Attribute (Name "self") "d") "e";
                               Attribute (Name "self") "b"])
                      (inside_Dog true))
     = Some (mk_ClassInfo "Dog" [] [] ["b"] []).
Proof.
  split.
  - exact (proj1 (@X13_assignment_targets _ recorder _ (inside_Dog false)
                    (new_ClassInfo "Dog" []) eq_refl)).
  - exact (proj1 (@X13_assignment_targets _ recorder _ (inside_Dog true)
                    (new_ClassInfo "Dog" []) eq_refl)).
Defined.

(** A constructor body with an assignment to a plain name, two assignments
    to [self.x], an unpacking into [self.u, self.w], a helper function and a
    conditional holding an assignment to [self.y]. *)
Definition busy_constructor : list node :=
[Assign [Name "tmp"];
 Assign [Attribute (Name "self") "x"];
 Assign [Tuple [Attribute (Name "self") "u"; Attribute (Name "self") "w"]];
 FunctionDef "helper" (mk_arguments [] None None)
   [Assign [Attribute (Name "self") "hidden"]];
 Other [Assign [Attribute (Name "self") "y"];
        Assign [Attribute (Name "self") "x"]]].

(** X14.  What a constructor does to the record of its class, when no
    further function definition named [__init__] is visited below it: the
    class variables are as before (a plain name assigned in the constructor
    is no class variable); the assignment targets that are themselves of
    the shape [self.attr] are added to the members in order of first
    occurrence, a tuple target being passed over with whatever it holds; the
    function definitions nested in the constructor are registered as methods
    of the class, in order, and the constructor itself after them; the visit
    returns with constructor mode off. *)
Theorem X14_constructor_record
        {C : Type} {print : Context C}
        (a : arguments) (body : list node) (v : TreeVisitor C)
        (ci : ClassInfo) :
  classinfo v = Some ci ->
  forallb stays_on body = true ->
  classinfo (visit (FunctionDef "__init__" a body) v)
  = Some (mk_ClassInfo (classname ci) (bases ci) (classvars ci)
            (members ci ++ first_seen (members ci) (flat_map self_attrs body))
            (methods ci ++ flat_map nested_defs body
                        ++ [mk_method "__init__" a]))
  /\ constructor (visit (FunctionDef "__init__" a body) v) = false.
Proof.
  intros Hci Hs.
  rewrite visit_FunctionDef_init by congruence.
  split; [|apply constructor_on_classinfo].
  destruct (@visit_in_constructor_record C print (Other body) Hs
              (set_constructor true v) ci Hci eq_refl) as [H _].
  rewrite visit_Other in H.
  unfold on_classinfo; cbn [set_constructor classinfo]; rewrite H.
  cbn [set_classinfo classinfo add_method classname bases classvars members
                     methods self_attrs nested_defs].
  unfold add_method; cbn [classname bases classvars members methods].
  rewrite register_all, <- app_assoc; reflexivity.
Qed.

Lemma X14_constructor_record_witness :
  classinfo (visit (FunctionDef "__init__" self_only busy_constructor)
                   (inside_Dog false))
  = Some (mk_ClassInfo "Dog" [] [] ["x"; "y"]
            [mk_method "helper" (mk_arguments [] None None);
             mk_method "__init__" self_only]).
Proof.
  exact (proj1 (@X14_constructor_record _ recorder self_only busy_constructor
                  (inside_Dog false) (new_ClassInfo "Dog" [])
                  eq_refl eq_refl)).
Defined.

(** ** The loop of the footer *)

(** X9.  The loop of [footer], [while self.namespaces:
    self.pop_ns(self.depth)], ends without raising after at most one round,
    whatever the state of the generator: one call of [pop_ns] closes all
    open namespaces, innermost first and each line at the depth its
    namespace was opened at, and leaves the stack empty; root, configuration
    and source name are as before. *)
Theorem X9_footer_loop_one_round (g : PUML_Generator) (bound : nat) :
  exists g',
    close_namespaces (S bound) g = Ok g'
    /\ namespaces g' = []
    /\ dest g' = dest g ++ close_lines (depth g) (depth g)
    /\ count_close (close_lines (depth g) (depth g)) = depth g
    /\ map ol_depth (close_lines (depth g) (depth g)) = rev (seq 0 (depth g))
    /\ root g' = root g /\ config g' = config g
    /\ sourcename g' = sourcename g.
Proof.
  exists (moved (close_lines (depth g) (depth g)) [] g).
  split.
  - cbn [close_namespaces].
    destruct (namespaces g) as [|x ns] eqn:E.
    + unfold depth; rewrite E; cbn [List.length close_lines].
      rewrite <- E; rewrite moved_id; reflexivity.
    + rewrite pop_ns_ok by lia. cbn [bind]. rewrite Nat.sub_diag.
      destruct bound; reflexivity.
  - cbn [moved namespaces dest root config sourcename].
    repeat split.
    + apply count_close_lines.
    + exact (depths_close_lines 0 (depth g)).
Qed.
